(** * BaseController (src/controller/BaseController.ts)

    A shallow embedding of the SAPUI5 base controller of the
    [com.ts.tsReport] application and of the route table of its
    manifest.  The controller is a thin orchestration layer over the
    framework: every framework call it makes is recorded as an [Event]
    in the trace of the [World], every promise reaction or timer it
    registers becomes a pending [Task], and the environment settles
    tasks one at a time ([settle]).  JavaScript exceptions are results
    of the monad [M], so that "does not throw" is a theorem rather
    than a typing accident. *)

From Stdlib Require Import String Ascii List ZArith Bool Lia.
Import ListNotations.

Local Open Scope string_scope.
Local Open Scope Z_scope.

(* ================================================================= *)
(** ** JavaScript string primitives used by the controller            *)
(* ================================================================= *)

(** Strings are sequences of code units; only code units below 256 are
    modelled, which covers module names, view names and control ids. *)
Module JS.

(** [s.length] *)
Definition len (s : string) : Z := Z.of_nat (String.length s).

(** [s.startsWith(p)], the test underlying every search below. *)
Fixpoint startsWith (s p : string) {struct p} : bool :=
  match p, s with
  | EmptyString, _ => true
  | String _ _, EmptyString => false
  | String a p', String b s' => Ascii.eqb a b && startsWith s' p'
  end.

(** [s.indexOf(p)]: index of the first occurrence, [-1] when none. *)
Fixpoint indexOf (s p : string) : Z :=
  if startsWith s p then 0
  else match s with
       | EmptyString => -1
       | String _ s' =>
           let r := indexOf s' p in
           if r <? 0 then -1 else r + 1
       end.

(** [s.lastIndexOf(p)]: index of the last occurrence, [-1] when none. *)
Fixpoint lastIndexOf (s p : string) : Z :=
  match s with
  | EmptyString => if startsWith s p then 0 else -1
  | String _ s' =>
      let r := lastIndexOf s' p in
      if 0 <=? r then r + 1
      else if startsWith s p then 0 else -1
  end.

Fixpoint drop (n : nat) (s : string) : string :=
  match n, s with
  | O, _ => s
  | S _, EmptyString => EmptyString
  | S n', String _ s' => drop n' s'
  end.

(** [s.substr(start)] with the length omitted: a negative [start]
    counts from the end of the string. *)
Definition substr (s : string) (start : Z) : string :=
  let from := if start <? 0 then Z.max (len s + start) 0 else start in
  drop (Z.to_nat from) s.

(** [s.split(sep)] for a one-character separator. The result is never
    empty: [("").split(".")] is [[""]]. *)
Fixpoint split (s : string) (sep : ascii) : list string :=
  match s with
  | EmptyString => [EmptyString]
  | String c s' =>
      if Ascii.eqb c sep then EmptyString :: split s' sep
      else match split s' sep with
           | [] => [String c EmptyString]
           | h :: t => String c h :: t
           end
  end.

(** [a.pop()]: the array without its last element (the popped value
    is discarded at the only call site). *)
Definition pop (a : list string) : list string := removelast a.

(** [a.join(sep)] *)
Fixpoint join (a : list string) (sep : string) : string :=
  match a with
  | [] => EmptyString
  | [x] => x
  | x :: rest => x ++ sep ++ join rest sep
  end.

Definition lowerChar (c : ascii) : ascii :=
  let n := nat_of_ascii c in
  if (Nat.leb 65 n && Nat.leb n 90)%bool then ascii_of_nat (n + 32) else c.

(** [s.toLowerCase()] *)
Fixpoint toLowerCase (s : string) : string :=
  match s with
  | EmptyString => EmptyString
  | String c s' => String (lowerChar c) (toLowerCase s')
  end.

(** [s.replace(p, r)] with a string pattern: only the first occurrence
    is replaced.  The replacement used by the controller has no [$]. *)
Fixpoint replace (s p r : string) : string :=
  if startsWith s p then r ++ drop (String.length p) s
  else match s with
       | EmptyString => EmptyString
       | String c s' => String c (replace s' p r)
       end.

(** Truthiness of an optional string argument: [undefined] and [""]
    are falsy. *)
Definition truthyStr (o : option string) : bool :=
  match o with
  | Some s => negb (String.eqb s "")
  | None => false
  end.

End JS.

(* ================================================================= *)
(** ** Framework objects                                               *)
(* ================================================================= *)

(** Framework objects are known to the controller only by identity. *)
Definition CtrlId := nat.
Definition DialogId := nat.
Definition ModelId := nat.
Definition RouterId := nat.
Definition ServiceId := nat.
Definition Callback := nat.
Definition Data := nat.

(** A plain object literal such as the [{}] route parameters. *)
Definition JSObject := list (string * string).

(** What [this.getView()] answers: the view's id and its view name. *)
Record View := mkView {
  getId : string;
  getViewName : string
}.

(** A controller instance together with the objects the framework
    associates with it: [this.getView()] and
    [UIComponent.getRouterFor(this)]. *)
Record BaseController := mkController {
  self : CtrlId;
  getView : View;
  getRouterFor : RouterId
}.

(** The [fragment] property of a registry entry. *)
Inductive FragmentSlot :=
| FragEmptyObject                 (* the literal [{}] written by openDialog *)
| FragUndefined                   (* what [sap.ui.require([...], cb)] returns *)
| FragDialog (d : DialogId).      (* the loaded [sap.m.Dialog] *)

(** The [controller] property of a registry entry. *)
Inductive ControllerSlot :=
| CtrlEmptyObject                 (* the literal [{}] written by openDialog *)
| CtrlAbsent                      (* the property does not exist *)
| CtrlRef (c : CtrlId).

Record Entry := mkEntry {
  fragment : FragmentSlot;
  controller : ControllerSlot
}.

(** An entry of the ShellUIService hierarchy. *)
Record HEntry := mkHEntry {
  title : string;
  intent : string
}.

(** The arguments of one [openDialog] call as the promise reactions
    close over them. *)
Record DialogRequest := mkRequest {
  rqThis : BaseController;
  rqId : string;                  (* [id], the registry key *)
  rqName : string;                (* [sViewPath + sName] *)
  rqModel : option ModelId;
  rqUpdate : option bool;
  rqCallback : option Callback;
  rqData : option Data
}.

(** Calls into the framework, in the order they are made. *)
Inductive Event :=
| ControllerCreate (name : string)
| SapUiRequire (module : string)
| FragmentLoad (id name : string) (oController : CtrlId)
| AddDependent (view : string) (d : DialogId)
| FragmentSetModel (d : DialogId) (m : ModelId)
| OnBeforeShow (receiver oController : CtrlId) (d : DialogId)
               (callback : option Callback) (data : option Data)
| SetTimeout (d : DialogId) (ms : Z)
| DialogOpen (d : DialogId)
| DialogClose (d : DialogId)
| WindowHistoryBack
| RouterNavTo (r : RouterId) (target : string)
              (parameters info : option JSObject) (replace : option bool)
| ViewSetModel (view : string) (m : ModelId) (name : option string)
| GetService (name : string)
| SetHierarchy (svc : ServiceId) (entries : list HEntry).

(** Promise reactions and timers that have been registered and wait
    for the framework. *)
Inductive Task :=
| AwaitController (rq : DialogRequest)
| AwaitFragmentClass (rq : DialogRequest) (oController : CtrlId)
| AwaitFragment (rq : DialogRequest) (oController : CtrlId)
| AwaitTimer (d : DialogId)
| AwaitShellService (this : BaseController).

(** What the controller given to the fragment has under the name
    [onBeforeShow]: nothing, or a function, and then whether a call of
    it returns or throws.  The hook is application code outside this
    file. *)
Inductive Hook :=
| HookMissing
| HookRuns (returns : bool).

(** How the framework settles a task. *)
Inductive Response :=
| ControllerResolved (oController : CtrlId)
| ControllerRejected
| FragmentClassReady
| FragmentResolved (oFragment : DialogId) (hook : Hook)
| FragmentRejected
| TimerFired
| ServiceResolved (oService : ServiceId).

(** The module-global registry [_fragments] is a JS object: its keys
    are enumerated by [for ... in] in insertion order (no key is an
    array index, every key contains a dash), so it is kept as an
    association list. *)
Record World := mkWorld {
  _fragments : list (string * Entry);
  openDialogs : list DialogId;                      (* dialogs whose isOpen() is true now *)
  previousHash : option string;                     (* History.getInstance().getPreviousHash() *)
  viewModels : list (string * option string * ModelId);
  aHistoryEntries : list (CtrlId * list HEntry);    (* the array each addHistoryEntry closure captured *)
  pending : list Task;
  trace : list Event
}.

(** The state when the module has just been loaded. *)
Definition initialWorld : World :=
  mkWorld [] [] None [] [] [] [].

Inductive JSError :=
| TypeError (msg : string).

Inductive Result (A : Type) :=
| Ok (a : A) (w : World)
| Throw (e : JSError) (w : World).
Arguments Ok {A} a w.
Arguments Throw {A} e w.

Definition M (A : Type) := World -> Result A.

Definition ret {A} (a : A) : M A := fun w => Ok a w.
Definition bind {A B} (m : M A) (k : A -> M B) : M B :=
  fun w => match m w with
           | Ok a w' => k a w'
           | Throw e w' => Throw e w'
           end.
Definition throw {A} (e : JSError) : M A := fun w => Throw e w.
Definition tryCatch {A} (m : M A) (handler : JSError -> M A) : M A :=
  fun w => match m w with
           | Ok a w' => Ok a w'
           | Throw e w' => handler e w'
           end.

Declare Scope js_scope.
Delimit Scope js_scope with js.
Notation "x <- m ;; k" := (bind m (fun x => k))
  (at level 61, m at next level, right associativity) : js_scope.
Notation "m ;; k" := (bind m (fun _ => k))
  (at level 61, right associativity) : js_scope.
Local Open Scope js_scope.

Definition worldOf {A} (r : Result A) : World :=
  match r with
  | Ok _ w => w
  | Throw _ w => w
  end.

Definition returns {A} (r : Result A) : bool :=
  match r with
  | Ok _ _ => true
  | Throw _ _ => false
  end.

(* ================================================================= *)
(** ** Primitive effects                                               *)
(* ================================================================= *)

Definition emit (e : Event) : M unit :=
  fun w => Ok tt (mkWorld (_fragments w) (openDialogs w) (previousHash w)
                          (viewModels w) (aHistoryEntries w) (pending w)
                          (trace w ++ [e])).

Definition enqueue (t : Task) : M unit :=
  fun w => Ok tt (mkWorld (_fragments w) (openDialogs w) (previousHash w)
                          (viewModels w) (aHistoryEntries w) (pending w ++ [t])
                          (trace w)).

Definition setFragments (r : list (string * Entry)) (w : World) : World :=
  mkWorld r (openDialogs w) (previousHash w) (viewModels w)
          (aHistoryEntries w) (pending w) (trace w).

Definition setOpenDialogs (o : list DialogId) (w : World) : World :=
  mkWorld (_fragments w) o (previousHash w) (viewModels w)
          (aHistoryEntries w) (pending w) (trace w).

Definition setViewModels (v : list (string * option string * ModelId)) (w : World) : World :=
  mkWorld (_fragments w) (openDialogs w) (previousHash w) v
          (aHistoryEntries w) (pending w) (trace w).

Definition setHistories (h : list (CtrlId * list HEntry)) (w : World) : World :=
  mkWorld (_fragments w) (openDialogs w) (previousHash w) (viewModels w)
          h (pending w) (trace w).

Definition setPending (p : list Task) (w : World) : World :=
  mkWorld (_fragments w) (openDialogs w) (previousHash w) (viewModels w)
          (aHistoryEntries w) p (trace w).

(** Property lookup [o[k]] on the registry object; [None] is [undefined]. *)
Fixpoint lookup (k : string) (r : list (string * Entry)) : option Entry :=
  match r with
  | [] => None
  | (k', e) :: r' => if String.eqb k k' then Some e else lookup k r'
  end.

(** Property assignment [o[k] = e]: an existing property keeps its place
    in the enumeration order, a new one is added last. *)
Fixpoint assign (k : string) (e : Entry) (r : list (string * Entry))
  : list (string * Entry) :=
  match r with
  | [] => [(k, e)]
  | (k', e') :: r' =>
      if String.eqb k k' then (k, e) :: r' else (k', e') :: assign k e r'
  end.

(** [_fragments[id]] *)
Definition readFragments (id : string) : M (option Entry) :=
  fun w => Ok (lookup id (_fragments w)) w.

(** [_fragments[id] = e] *)
Definition writeFragments (id : string) (e : Entry) : M unit :=
  fun w => Ok tt (setFragments (assign id e (_fragments w)) w).

(** [_fragments[id].fragment = f]; reading a property of [undefined]
    throws. *)
Definition writeFragmentSlot (id : string) (f : FragmentSlot) : M unit :=
  e <- readFragments id ;;
  match e with
  | None => throw (TypeError "Cannot set properties of undefined")
  | Some e => writeFragments id (mkEntry f (controller e))
  end.

(** [_fragments[id].controller = c] *)
Definition writeControllerSlot (id : string) (c : ControllerSlot) : M unit :=
  e <- readFragments id ;;
  match e with
  | None => throw (TypeError "Cannot set properties of undefined")
  | Some e => writeFragments id (mkEntry (fragment e) c)
  end.

Definition isOpenIn (o : list DialogId) (d : DialogId) : bool :=
  existsb (Nat.eqb d) o.

(** [f.open()] for the value [f] of a [fragment] property. *)
Definition callOpen (f : FragmentSlot) : M unit :=
  match f with
  | FragDialog d =>
      emit (DialogOpen d) ;;
      fun w => Ok tt (setOpenDialogs
                        (if isOpenIn (openDialogs w) d then openDialogs w
                         else openDialogs w ++ [d]) w)
  | FragEmptyObject => throw (TypeError "open is not a function")
  | FragUndefined => throw (TypeError "Cannot read properties of undefined")
  end.

(** [f.close()].  A dialog closes asynchronously: [close()] starts the
    closing and [isOpen()] stays true until the framework has finished
    it, which is a later change of [openDialogs] by the environment
    ([R_user], [S_user]). *)
Definition callClose (f : FragmentSlot) : M unit :=
  match f with
  | FragDialog d => emit (DialogClose d)
  | FragEmptyObject => throw (TypeError "close is not a function")
  | FragUndefined => throw (TypeError "Cannot read properties of undefined")
  end.

(** [f.isOpen()] *)
Definition callIsOpen (f : FragmentSlot) : M bool :=
  match f with
  | FragDialog d => fun w => Ok (isOpenIn (openDialogs w) d) w
  | FragEmptyObject => throw (TypeError "isOpen is not a function")
  | FragUndefined => throw (TypeError "Cannot read properties of undefined")
  end.

(** Truthiness of [f["isOpen"]]: a dialog has the method, the empty
    object has not, and the property of [undefined] cannot be read. *)
Definition memberIsOpen (f : FragmentSlot) : M bool :=
  match f with
  | FragDialog _ => ret true
  | FragEmptyObject => ret false
  | FragUndefined => throw (TypeError "Cannot read properties of undefined")
  end.

(** Truthiness of the value of a [fragment] property. *)
Definition truthyFragment (f : FragmentSlot) : bool :=
  match f with
  | FragUndefined => false
  | FragEmptyObject | FragDialog _ => true
  end.

Definition truthyFlag (b : option bool) : bool :=
  match b with
  | Some true => true
  | _ => false
  end.

Definition modelKeyEqb (a b : string * option string) : bool :=
  String.eqb (fst a) (fst b) &&
  match snd a, snd b with
  | None, None => true
  | Some x, Some y => String.eqb x y
  | _, _ => false
  end.

Fixpoint lookupModel (k : string * option string)
         (l : list (string * option string * ModelId)) : option ModelId :=
  match l with
  | [] => None
  | (k', m) :: l' => if modelKeyEqb k k' then Some m else lookupModel k l'
  end.

(** [view.getModel(sName)] and [view.getModel()] of the framework *)
Definition View_getModel (v : View) (sName : option string) : M (option ModelId) :=
  fun w => Ok (lookupModel (getId v, sName) (viewModels w)) w.

(** [view.setModel(oModel, sName)] of the framework; it returns the view. *)
Definition View_setModel (v : View) (oModel : ModelId) (sName : option string) : M View :=
  emit (ViewSetModel (getId v) oModel sName) ;;
  fun w => Ok v (setViewModels ((getId v, sName, oModel) :: viewModels w) w).

(** [router.navTo(...)] of the framework *)
Definition Router_navTo (r : RouterId) (sName : string)
           (oParameters oComponentTargetInfo : option JSObject)
           (bReplace : option bool) : M unit :=
  emit (RouterNavTo r sName oParameters oComponentTargetInfo bReplace).

Fixpoint lookupHistory (c : CtrlId) (l : list (CtrlId * list HEntry)) : list HEntry :=
  match l with
  | [] => []
  | (c', h) :: l' => if Nat.eqb c c' then h else lookupHistory c l'
  end.

(** Read and write of the captured variable [aHistoryEntries]. *)
Definition getHistory (this : BaseController) : M (list HEntry) :=
  fun w => Ok (lookupHistory (self this) (aHistoryEntries w)) w.

Definition putHistory (this : BaseController) (h : list HEntry) : M unit :=
  fun w => Ok tt (setHistories ((self this, h) :: aHistoryEntries w) w).

Fixpoint forEach {A} (l : list A) (body : A -> M unit) : M unit :=
  match l with
  | [] => ret tt
  | x :: l' => body x ;; forEach l' body
  end.

(* ================================================================= *)
(** ** The controller                                                  *)
(* ================================================================= *)

(** [getModel(modelName?)] *)
Definition getModel (this : BaseController) (modelName : option string)
  : M (option ModelId) :=
  if JS.truthyStr modelName
  then View_getModel (getView this) modelName
  else View_getModel (getView this) None.

(** [setModel(model, modelName)] *)
Definition setModel (this : BaseController) (model : ModelId) (modelName : option string)
  : M View :=
  View_setModel (getView this) model modelName.

(** [getRouter()] *)
Definition getRouter (this : BaseController) : RouterId := getRouterFor this.

(** [navTo(psTarget, pmParameters?, oComponentTargetInfo?, pbReplace?)] *)
Definition navTo (this : BaseController) (psTarget : string)
           (pmParameters oComponentTargetInfo : option JSObject)
           (pbReplace : option bool) : M unit :=
  Router_navTo (getRouter this) psTarget pmParameters oComponentTargetInfo pbReplace.

(** [onNavBack()] *)
Definition onNavBack (this : BaseController) : M unit :=
  fun w =>
    let sPreviousHash := previousHash w in
    match sPreviousHash with
    | Some _ => emit WindowHistoryBack w
    | None => Router_navTo (getRouter this) "appHome" (Some []) (Some []) (Some true) w
    end.

(** The first statement of [openDialog]: the array [aViewName] and the
    rebound [sName]. *)
Definition splitName (this : BaseController) (sName : string)
  : list string * string :=
  if 0 <? JS.indexOf sName "."
  then (JS.split sName ".", JS.substr sName (JS.lastIndexOf sName "." + 1))
  else (JS.split (getViewName (getView this)) ".", sName).

(** [aViewName.pop(); sViewPath = aViewName.join(".")] followed by the
    test on ["fragments"]. *)
Definition viewPath (aViewName : list string) : string :=
  let aViewName := JS.pop aViewName in
  let sViewPath := JS.join aViewName "." in
  if 0 <? JS.indexOf (JS.toLowerCase sViewPath) "fragments"
  then sViewPath ++ "."
  else sViewPath ++ ".fragments.".

(** [createDialogFragment(sID, name, oController, model, ...)]: the
    object literal is evaluated first (which calls [sap.ui.require] and
    registers the callback), then stored; it has no [controller]
    property. *)
Definition createDialogFragment (rq : DialogRequest) (oController : CtrlId) : M unit :=
  emit (SapUiRequire "sap/ui/core/Fragment") ;;
  enqueue (AwaitFragmentClass rq oController) ;;
  writeFragments (rqId rq) (mkEntry FragUndefined CtrlAbsent).

(** [openDialog(sName, model?, updateModelAlways?, callback?, data?)] *)
Definition openDialog (this : BaseController) (sName : string)
           (model : option ModelId) (updateModelAlways : option bool)
           (callback : option Callback) (data : option Data) : M unit :=
  let '(aViewName, sName) := splitName this sName in
  let sViewPath := viewPath aViewName in
  let id := getId (getView this) ++ "-" ++ sName in
  entry <- readFragments id ;;
  match entry with
  | None =>
      let sControllerPath := JS.replace sViewPath "view" "controller" in
      writeFragments id (mkEntry FragEmptyObject CtrlEmptyObject) ;;
      emit (ControllerCreate (sControllerPath ++ sName)) ;;
      enqueue (AwaitController
                 (mkRequest this id (sViewPath ++ sName) model
                            updateModelAlways callback data))
  | Some entry => callOpen (fragment entry)
  end.

(** The body of the [for (var f in _fragments)] loop of
    [closeFragments], with the short-circuit of [&&] written out. *)
Definition closeIfOpen (f : string) : M unit :=
  entry <- readFragments f ;;
  match entry with
  | None => throw (TypeError "Cannot read properties of undefined")
  | Some entry =>
      if truthyFragment (fragment entry) then
        hasIsOpen <- memberIsOpen (fragment entry) ;;
        if (hasIsOpen : bool) then
          bOpen <- callIsOpen (fragment entry) ;;
          if (bOpen : bool) then callClose (fragment entry) else ret tt
        else ret tt
      else ret tt
  end.

(** [closeFragments()] *)
Definition closeFragments (this : BaseController) : M unit :=
  fun w => forEach (map fst (_fragments w)) closeIfOpen w.

(** [getFragment(fragment)]; [None] is [undefined]. *)
Definition getFragment (this : BaseController) (fragment : string) : M (option Entry) :=
  readFragments (getId (getView this) ++ "-" ++ fragment).

(** [addHistoryEntry(oEntry, bReset)], the closure returned by the
    immediately invoked function. *)
Definition addHistoryEntry (this : BaseController) (oEntry : HEntry) (bReset : bool)
  : M unit :=
  (if bReset then putHistory this [] else ret tt) ;;
  aEntries <- getHistory this ;;
  let bInHistory :=
    existsb (fun oHistoryEntry => String.eqb (intent oHistoryEntry) (intent oEntry))
            aEntries in
  if negb bInHistory then
    putHistory this (aEntries ++ [oEntry]) ;;
    emit (GetService "ShellUIService") ;;
    enqueue (AwaitShellService this)
  else ret tt.

(** [_fragments[sID].controller.onBeforeShow(oController, fragment,
    callback, data)]: the receiver is read back from the registry.
    There is no test that the controller defines [onBeforeShow]: when
    it does not, the call expression throws a TypeError and nothing is
    invoked; when it does, the hook is invoked and returns or throws. *)
Definition callOnBeforeShow (sID : string) (oController : CtrlId)
           (fragment : DialogId) (callback : option Callback)
           (data : option Data) (hook : Hook) : M unit :=
  entry <- readFragments sID ;;
  match option_map controller entry with
  | Some (CtrlRef receiver) =>
      match hook with
      | HookMissing => throw (TypeError "onBeforeShow is not a function")
      | HookRuns returns =>
          emit (OnBeforeShow receiver oController fragment callback data) ;;
          if returns then ret tt
          else throw (TypeError "thrown by onBeforeShow")
      end
  | _ => throw (TypeError "Cannot read properties of undefined")
  end.

(** The reaction registered on [Fragment.load(...)]: the body of
    [.then((oFragment) => ...)] in [createDialogFragment]. *)
Definition onFragmentLoaded (rq : DialogRequest) (oController : CtrlId)
           (oFragment : DialogId) (hook : Hook) : M unit :=
  let this := rqThis rq in
  let sID := rqId rq in
  writeFragmentSlot sID (FragDialog oFragment) ;;
  emit (AddDependent (getId (getView this)) oFragment) ;;
  writeControllerSlot sID (CtrlRef oController) ;;
  match rqModel rq with
  | Some model =>
      if truthyFlag (rqUpdate rq)
      then emit (FragmentSetModel oFragment model)
      else ret tt
  | None => ret tt
  end ;;
  (if negb (Nat.eqb oController (self this))
   then callOnBeforeShow sID oController oFragment (rqCallback rq) (rqData rq)
                         hook
   else ret tt) ;;
  emit (SetTimeout oFragment 100) ;;
  enqueue (AwaitTimer oFragment).

(** The two reactions on [Controller.create(...)]. *)
Definition onControllerCreated (rq : DialogRequest) (oController : CtrlId) : M unit :=
  writeControllerSlot (rqId rq) (CtrlRef oController) ;;
  createDialogFragment rq oController.

Definition onControllerFailed (rq : DialogRequest) : M unit :=
  writeControllerSlot (rqId rq) (CtrlRef (self (rqThis rq))) ;;
  createDialogFragment rq (self (rqThis rq)).

(** What runs when the framework settles task [t] with response [r];
    [None] when the response does not fit the task.
    [p.then(f).catch(g)] runs [g] both when [p] rejects and when [f]
    throws. *)
Definition react (t : Task) (r : Response) : option (M unit) :=
  match t, r with
  | AwaitController rq, ControllerResolved oController =>
      Some (tryCatch (onControllerCreated rq oController)
                     (fun _ => onControllerFailed rq))
  | AwaitController rq, ControllerRejected =>
      Some (onControllerFailed rq)
  | AwaitFragmentClass rq oController, FragmentClassReady =>
      Some (emit (FragmentLoad (rqId rq) (rqName rq) oController) ;;
            enqueue (AwaitFragment rq oController))
  | AwaitFragment rq oController, FragmentResolved oFragment hook =>
      Some (onFragmentLoaded rq oController oFragment hook)
  | AwaitFragment _ _, FragmentRejected =>
      Some (ret tt)
  | AwaitTimer d, TimerFired =>
      Some (callOpen (FragDialog d))
  | AwaitShellService this, ServiceResolved oService =>
      Some (aEntries <- getHistory this ;;
            emit (SetHierarchy oService aEntries))
  | _, _ => None
  end.

Fixpoint removeNth {A} (i : nat) (l : list A) : list A :=
  match i, l with
  | _, [] => []
  | O, _ :: l' => l'
  | S i', x :: l' => x :: removeNth i' l'
  end.

(** One step of the environment: the [i]-th pending task is settled
    with response [r]. An exception thrown by a reaction rejects the
    derived promise, which nobody observes; the world keeps what the
    reaction did before it threw. *)
Definition settle (i : nat) (r : Response) (w : World) : option World :=
  match nth_error (pending w) i with
  | None => None
  | Some t =>
      match react t r with
      | None => None
      | Some m => Some (worldOf (m (setPending (removeNth i (pending w)) w)))
      end
  end.

(* ================================================================= *)
(** ** The manifest (src/manifest.json, sap.ui5.routing.routes)        *)
(* ================================================================= *)

Record Route := mkRoute {
  routeName : string;
  routePattern : string;
  routeTarget : string
}.

Definition manifestRoutes : list Route :=
  [ mkRoute "home" "" "home" ].

Definition declaresRoute (routes : list Route) (name : string) : bool :=
  existsb (fun r => String.eqb (routeName r) name) routes.

(* ================================================================= *)
(** ** Vocabulary of the statements                                    *)
(* ================================================================= *)

(** The world [w] with [evs] appended to its trace. *)
Definition addTrace (evs : list Event) (w : World) : World :=
  mkWorld (_fragments w) (openDialogs w) (previousHash w) (viewModels w)
          (aHistoryEntries w) (pending w) (trace w ++ evs).

(** What [openDialog] computes from its arguments before it touches
    the registry. *)
Definition dialogName (this : BaseController) (sName : string) : string :=
  snd (splitName this sName).

Definition dialogViewPath (this : BaseController) (sName : string) : string :=
  viewPath (fst (splitName this sName)).

Definition dialogKey (this : BaseController) (sName : string) : string :=
  getId (getView this) ++ "-" ++ dialogName this sName.

Definition fragmentName (this : BaseController) (sName : string) : string :=
  dialogViewPath this sName ++ dialogName this sName.

Definition controllerName (this : BaseController) (sName : string) : string :=
  JS.replace (dialogViewPath this sName) "view" "controller" ++ dialogName this sName.

Definition requestOf (this : BaseController) (sName : string)
           (model : option ModelId) (updateModelAlways : option bool)
           (callback : option Callback) (data : option Data) : DialogRequest :=
  mkRequest this (dialogKey this sName) (fragmentName this sName)
            model updateModelAlways callback data.

(** The array captured by the [addHistoryEntry] of controller [this]. *)
Definition historyOf (this : BaseController) (w : World) : list HEntry :=
  lookupHistory (self this) (aHistoryEntries w).

(** The environment settles the task that was registered last. *)
Definition settleLast (r : Response) (w : World) : option World :=
  settle (Nat.pred (List.length (pending w))) r w.

(** A run in which each response settles the task registered last, so
    that the reactions of one [openDialog] follow each other. *)
Fixpoint settleAll (rs : list Response) (w : World) : option World :=
  match rs with
  | [] => Some w
  | r :: rs' =>
      match settleLast r w with
      | Some w' => settleAll rs' w'
      | None => None
      end
  end.

(** [openDialog] followed by the settlement of what it started. *)
Definition openDialogThen (this : BaseController) (sName : string)
           (model : option ModelId) (updateModelAlways : option bool)
           (callback : option Callback) (data : option Data)
           (rs : list Response) (w : World) : option World :=
  settleAll rs (worldOf (openDialog this sName model updateModelAlways callback data w)).

(** The dialog registered under key [k], if loaded. *)
Definition dialogAt (r : list (string * Entry)) (k : string) : option DialogId :=
  match lookup k r with
  | Some (mkEntry (FragDialog d) _) => Some d
  | _ => None
  end.

(** The worlds the application can be in: the module has been loaded,
    and then controllers are called and the framework settles tasks,
    in any order; the user may open or close dialogs and navigate, and
    the framework finishes the closing of a dialog ([R_user]). *)
Inductive Reachable : World -> Prop :=
| R_loaded : forall o h v,
    Reachable (mkWorld [] o h v [] [] [])
| R_openDialog : forall w this sName model upd cb data,
    Reachable w ->
    Reachable (worldOf (openDialog this sName model upd cb data w))
| R_closeFragments : forall w this,
    Reachable w -> Reachable (worldOf (closeFragments this w))
| R_addHistoryEntry : forall w this oEntry bReset,
    Reachable w -> Reachable (worldOf (addHistoryEntry this oEntry bReset w))
| R_navTo : forall w this t p i r,
    Reachable w -> Reachable (worldOf (navTo this t p i r w))
| R_onNavBack : forall w this,
    Reachable w -> Reachable (worldOf (onNavBack this w))
| R_setModel : forall w this m n,
    Reachable w -> Reachable (worldOf (setModel this m n w))
| R_settle : forall w i r w',
    Reachable w -> settle i r w = Some w' -> Reachable w'
| R_user : forall w o h,
    Reachable w ->
    Reachable (mkWorld (_fragments w) o h (viewModels w)
                       (aHistoryEntries w) (pending w) (trace w)).

(** The calls made by the reaction to a loaded fragment: the optional
    [setModel], the optional [onBeforeShow], and the timer that opens
    the dialog unless the hook is missing or threw. *)
Definition setModelEvents (rq : DialogRequest) (d : DialogId) : list Event :=
  match rqModel rq with
  | Some model => if truthyFlag (rqUpdate rq) then [FragmentSetModel d model] else []
  | None => []
  end.

Definition hookReturned (hook : Hook) : bool :=
  match hook with
  | HookMissing => false
  | HookRuns returns => returns
  end.

Definition hookEvents (rq : DialogRequest) (c : CtrlId) (d : DialogId) (hook : Hook)
  : list Event :=
  if Nat.eqb c (self (rqThis rq)) then []
  else match hook with
       | HookMissing => []
       | HookRuns _ => [OnBeforeShow c c d (rqCallback rq) (rqData rq)]
       end.

Definition reachesTimer (rq : DialogRequest) (c : CtrlId) (hook : Hook) : bool :=
  Nat.eqb c (self (rqThis rq)) || hookReturned hook.

(** How [Controller.create] was settled, and with which controller the
    fragment is created as a result. *)
Definition settlesWith (this : BaseController) (rc : Response) (c : CtrlId) : Prop :=
  rc = ControllerResolved c \/ (rc = ControllerRejected /\ c = self this).

(** The [close()] calls of one run of the loop of [closeFragments]
    over the keys [ks], in their order. *)
Definition closeCalls (r : list (string * Entry)) (o : list DialogId)
           (ks : list string) : list Event :=
  flat_map (fun k => match dialogAt r k with
                     | Some d => if isOpenIn o d then [DialogClose d] else []
                     | None => []
                     end) ks.

(** The test of [aHistoryEntries.some(...)] in [addHistoryEntry]. *)
Definition sameIntent (oEntry oHistoryEntry : HEntry) : bool :=
  String.eqb (intent oHistoryEntry) (intent oEntry).

(** *** The claims' own words, for comparison with the code *)

(** "the last dot-segment of sName", "the substring of sName after its
    last '.'" *)
Definition lastDotSegment (s : string) : string :=
  last (JS.split s ".") "".

(** "sName with its last segment removed" *)
Definition withoutLastSegment (s : string) : string :=
  JS.join (removelast (JS.split s ".")) ".".

(** "containing a '.' at a position greater than 0" *)
Definition hasDotAtPositivePosition (s : string) : bool :=
  match s with
  | EmptyString => false
  | String _ s' => 0 <=? JS.indexOf s' "."
  end.

(** "contains [p] at an index greater than 0" *)
Definition containsAtPositiveIndex (s p : string) : bool :=
  match s with
  | EmptyString => false
  | String _ s' => 0 <=? JS.indexOf s' p
  end.

(** "with .fragments appended to P unless P already contains
    fragments (case-insensitively, at an index greater than 0)" *)
Definition statedFragmentsFolder (P : string) : string :=
  if containsAtPositiveIndex (JS.toLowerCase P) "fragments"
  then P else P ++ ".fragments".

(** The fragment name as the third claim words it. *)
Definition statedFragmentName (this : BaseController) (sName : string) : string :=
  let C := lastDotSegment sName in
  let P := if hasDotAtPositivePosition sName
           then withoutLastSegment sName
           else withoutLastSegment (getViewName (getView this)) in
  statedFragmentsFolder P ++ "." ++ C.

(** The registry key as the first claim words it. *)
Definition statedKey (this : BaseController) (sName : string) : string :=
  getId (getView this) ++ "-" ++ lastDotSegment sName.

(** The folder rule as the code has it: [indexOf] finds the first
    occurrence. *)
Definition fragmentsFolder (P : string) : string :=
  if 0 <? JS.indexOf (JS.toLowerCase P) "fragments"
  then P else P ++ ".fragments".

(** Sample controllers used by the examples. *)
Definition homeView : View := mkView "home" "com.ts.tsReport.view.Home".
Definition homeController : BaseController := mkController 1%nat homeView 10%nat.
Definition otherView : View := mkView "home-x.y" "com.ts.tsReport.view.Other".
Definition otherController : BaseController := mkController 2%nat otherView 10%nat.

(* ================================================================= *)
(** ** The rest of the controller and of the manifest                  *)
(* ================================================================= *)

Definition ElementId := nat.

(** [a[i]]; [None] is [undefined]. *)
Definition arrayAt (a : list string) (i : Z) : option string :=
  if i <? 0 then None else nth_error a (Z.to_nat i).

(** A value in a string concatenation: [undefined] prints as
    ["undefined"]. *)
Definition toStr (o : option string) : string :=
  match o with
  | Some s => s
  | None => "undefined"
  end.

(** [fragmentById(parent, id)].  The class name
    [this.getMetadata().getName()] and the element registry behind
    [sap.ui.getCore().byId] belong to the framework and are taken as
    parameters. *)
Definition fragmentById (sClassName : string) (byId : string -> option ElementId)
           (parent : BaseController) (id : string) : option ElementId :=
  let latest :=
    arrayAt (JS.split sClassName ".")
            (Z.of_nat (List.length (JS.split sClassName ".")) - 1) in
  byId (getId (getView parent) ++ "-" ++ toStr latest ++ "--" ++ id).

(** The two entries [openDialog] and [createDialogFragment] write
    before the fragment is there. *)
Definition placeholderEntry : Entry := mkEntry FragEmptyObject CtrlEmptyObject.
Definition loadingEntry : Entry := mkEntry FragUndefined CtrlAbsent.

(** The registry key a pending reaction works on, and the entry it
    was registered against. *)
Definition taskKey (t : Task) : option string :=
  match t with
  | AwaitController rq => Some (rqId rq)
  | AwaitFragmentClass rq _ => Some (rqId rq)
  | AwaitFragment rq _ => Some (rqId rq)
  | AwaitTimer _ => None
  | AwaitShellService _ => None
  end.

Definition taskEntry (t : Task) : Entry :=
  match t with
  | AwaitController _ => placeholderEntry
  | _ => loadingEntry
  end.

Fixpoint taskKeys (p : list Task) : list string :=
  match p with
  | [] => []
  | t :: p' =>
      match taskKey t with
      | Some k => k :: taskKeys p'
      | None => taskKeys p'
      end
  end.

(** The number of [Controller.create] calls in a trace. *)
Fixpoint creations (tr : list Event) : nat :=
  match tr with
  | [] => O
  | ControllerCreate _ :: tr' => S (creations tr')
  | _ :: tr' => creations tr'
  end.

(** The three states of a registry entry. *)
Definition entryShape (e : Entry) : Prop :=
  e = placeholderEntry \/ e = loadingEntry \/
  exists d c, e = mkEntry (FragDialog d) (CtrlRef c).

(** What holds of registry, pending reactions and trace together. *)
Record Consistent (w : World) : Prop := mkConsistent {
  keys_distinct : NoDup (map fst (_fragments w));
  entries_shaped : forall k e, lookup k (_fragments w) = Some e -> entryShape e;
  tasks_registered :
    forall t k, In t (pending w) -> taskKey t = Some k ->
                lookup k (_fragments w) = Some (taskEntry t);
  tasks_distinct : NoDup (taskKeys (pending w));
  creations_counted : creations (trace w) = List.length (_fragments w)
}.

(** One operation of the application: a controller method is called,
    the framework settles a task, or the user acts on the page or the
    framework finishes the closing of a dialog ([S_user]). *)
Inductive Step : World -> World -> Prop :=
| S_openDialog : forall w this sName model upd cb data,
    Step w (worldOf (openDialog this sName model upd cb data w))
| S_closeFragments : forall w this,
    Step w (worldOf (closeFragments this w))
| S_addHistoryEntry : forall w this oEntry bReset,
    Step w (worldOf (addHistoryEntry this oEntry bReset w))
| S_navTo : forall w this t p i r,
    Step w (worldOf (navTo this t p i r w))
| S_onNavBack : forall w this,
    Step w (worldOf (onNavBack this w))
| S_setModel : forall w this m n,
    Step w (worldOf (setModel this m n w))
| S_getModel : forall w this n,
    Step w (worldOf (getModel this n w))
| S_getFragment : forall w this s,
    Step w (worldOf (getFragment this s w))
| S_settle : forall w i r w',
    settle i r w = Some w' -> Step w w'
| S_user : forall w o h,
    Step w (mkWorld (_fragments w) o h (viewModels w)
                    (aHistoryEntries w) (pending w) (trace w)).

(** Any number of operations. *)
Inductive Steps : World -> World -> Prop :=
| Steps_refl : forall w, Steps w w
| Steps_step : forall w w1 w2, Steps w w1 -> Step w1 w2 -> Steps w w2.

(** The key [k] is registered without a fragment and no pending
    reaction will ever supply one. *)
Definition abandoned (k : string) (w : World) : Prop :=
  lookup k (_fragments w) = Some loadingEntry /\ ~ In k (taskKeys (pending w)).

(** The dialog [d] is the loaded fragment of some registry entry. *)
Definition registeredDialog (d : DialogId) (w : World) : Prop :=
  exists k c, lookup k (_fragments w) = Some (mkEntry (FragDialog d) (CtrlRef c)).

(** The controller has called [open()] on [d], or has set the timer
    that will. *)
Definition openedByController (d : DialogId) (w : World) : Prop :=
  In (AwaitTimer d) (pending w) \/ In (DialogOpen d) (trace w).

(** *** src/manifest.json, sap.ui5.routing: config.viewPath and targets *)

Record Target := mkTarget {
  targetKey : string;
  targetViewName : string;
  targetViewId : string;
  targetViewLevel : Z
}.

Definition manifestViewPath : string := "com.ts.tsReport.view".

Definition manifestTargets : list Target :=
  [ mkTarget "app" "App" "idAppControl" 0;
    mkTarget "home" "Home" "homeView" 1 ].

(** The view name the router gives the view of a target. *)
Definition targetFullViewName (t : Target) : string :=
  manifestViewPath ++ "." ++ targetViewName t.

(* ================================================================= *)
(** * Properties                                                       *)
(* ================================================================= *)

Example indexOf_dot : JS.indexOf "view.login.Login" "." = 4.
Proof. reflexivity. Qed.
Example indexOf_none : JS.indexOf "Login" "." = -1.
Proof. reflexivity. Qed.
Example lastIndexOf_dot : JS.lastIndexOf "view.login.Login" "." = 10.
Proof. reflexivity. Qed.
Example lastIndexOf_empty : JS.lastIndexOf "abc" "" = 3.
Proof. reflexivity. Qed.
Example split_view : JS.split "view.login.Login" "." = ["view"; "login"; "Login"].
Proof. reflexivity. Qed.
Example split_lead : JS.split ".Foo" "." = [""; "Foo"].
Proof. reflexivity. Qed.
Example join_pop : JS.join (JS.pop (JS.split "view.login.Login" ".")) "." = "view.login".
Proof. reflexivity. Qed.
Example replace_first :
  JS.replace "app.view.viewer.fragments." "view" "controller"
  = "app.controller.viewer.fragments.".
Proof. reflexivity. Qed.
Example lower_ex : JS.toLowerCase "View.Fragments" = "view.fragments".
Proof. reflexivity. Qed.

(** ** Facts about the string primitives *)

Lemma startsWith_char (s : string) (c : ascii) :
  JS.startsWith s (String c "") =
  match s with
  | EmptyString => false
  | String b _ => Ascii.eqb c b
  end.
Proof.
  destruct s as [|b s]; simpl; [reflexivity|].
  now rewrite andb_true_r.
Qed.

Lemma indexOf_lower_bound (s p : string) : -1 <= JS.indexOf s p.
Proof.
  induction s as [|a s IH]; simpl.
  - destruct (JS.startsWith "" p); lia.
  - destruct (JS.startsWith (String a s) p); [lia|].
    destruct (JS.indexOf s p <? 0) eqn:E; lia.
Qed.

Lemma indexOf_cons_char (a c : ascii) (s : string) :
  JS.indexOf (String a s) (String c "") =
  if Ascii.eqb c a then 0
  else if JS.indexOf s (String c "") <? 0 then -1
       else JS.indexOf s (String c "") + 1.
Proof.
  change (JS.indexOf (String a s) (String c "")) with
    (if JS.startsWith (String a s) (String c "") then 0
     else if JS.indexOf s (String c "") <? 0 then -1
          else JS.indexOf s (String c "") + 1).
  now rewrite startsWith_char.
Qed.

Lemma lastIndexOf_cons_char (a c : ascii) (s : string) :
  JS.lastIndexOf (String a s) (String c "") =
  if 0 <=? JS.lastIndexOf s (String c "") then JS.lastIndexOf s (String c "") + 1
  else if Ascii.eqb c a then 0 else -1.
Proof.
  change (JS.lastIndexOf (String a s) (String c "")) with
    (if 0 <=? JS.lastIndexOf s (String c "") then JS.lastIndexOf s (String c "") + 1
     else if JS.startsWith (String a s) (String c "") then 0 else -1).
  now rewrite startsWith_char.
Qed.

Lemma lastIndexOf_lower_bound (s : string) (c : ascii) :
  -1 <= JS.lastIndexOf s (String c "").
Proof.
  induction s as [|a s IH].
  - simpl. lia.
  - rewrite lastIndexOf_cons_char.
    destruct (0 <=? JS.lastIndexOf s (String c "")) eqn:E; [lia|].
    destruct (Ascii.eqb c a); lia.
Qed.

(** A string has a last occurrence of [c] exactly when it has a first. *)
Lemma lastIndexOf_neg_iff (s : string) (c : ascii) :
  JS.lastIndexOf s (String c "") < 0 <-> JS.indexOf s (String c "") < 0.
Proof.
  induction s as [|a s IH].
  - simpl. lia.
  - rewrite lastIndexOf_cons_char, indexOf_cons_char.
    pose proof (indexOf_lower_bound s (String c "")).
    pose proof (lastIndexOf_lower_bound s c).
    destruct (0 <=? JS.lastIndexOf s (String c "")) eqn:E1;
      destruct (Ascii.eqb c a) eqn:E2;
      destruct (JS.indexOf s (String c "") <? 0) eqn:E3; lia.
Qed.

Lemma split_not_nil (s : string) (c : ascii) : JS.split s c <> [].
Proof.
  destruct s as [|a s]; simpl; [discriminate|].
  destruct (Ascii.eqb a c); [discriminate|].
  destruct (JS.split s c); discriminate.
Qed.

(** Without a separator, [split] returns the string itself. *)
Lemma split_no_sep (s : string) (c : ascii) :
  JS.indexOf s (String c "") < 0 -> JS.split s c = [s].
Proof.
  induction s as [|a s IH]; intros H; [reflexivity|].
  rewrite indexOf_cons_char in H. simpl.
  rewrite Ascii.eqb_sym.
  destruct (Ascii.eqb c a) eqn:E; [lia|].
  destruct (JS.indexOf s (String c "") <? 0) eqn:E3; [|pose proof (indexOf_lower_bound s (String c "")); lia].
  rewrite IH by lia. reflexivity.
Qed.

(** With a separator, [split] returns at least two segments. *)
Lemma split_with_sep (s : string) (c : ascii) :
  0 <= JS.indexOf s (String c "") ->
  exists x y l, JS.split s c = x :: y :: l.
Proof.
  induction s as [|a s IH]; intros H; [simpl in H; lia|].
  rewrite indexOf_cons_char in H. simpl.
  rewrite Ascii.eqb_sym.
  destruct (Ascii.eqb c a) eqn:E.
  - destruct (JS.split s c) as [|y l] eqn:Es; [now apply split_not_nil in Es|].
    now exists "", y, l.
  - destruct (JS.indexOf s (String c "") <? 0) eqn:E3; [lia|].
    destruct IH as (x & y & l & ->); [lia|].
    now exists (String a x), y, l.
Qed.

Lemma join_split (s : string) (c : ascii) :
  JS.join (JS.split s c) (String c "") = s.
Proof.
  induction s as [|a s IH]; [reflexivity|].
  simpl. destruct (Ascii.eqb a c) eqn:E.
  - apply Ascii.eqb_eq in E. subst a.
    destruct (JS.split s c) as [|y l] eqn:Es; [now apply split_not_nil in Es|].
    simpl. simpl in IH. now rewrite IH.
  - destruct (JS.split s c) as [|y l] eqn:Es; [now apply split_not_nil in Es|].
    destruct l as [|z l]; simpl in *; now rewrite IH.
Qed.

Lemma append_assoc (a b c : string) : (a ++ b) ++ c = a ++ (b ++ c).
Proof. induction a as [|x a IH]; simpl; [reflexivity|now rewrite IH]. Qed.

Lemma append_nil_r (a : string) : a ++ "" = a.
Proof. induction a as [|x a IH]; simpl; [reflexivity|now rewrite IH]. Qed.

(** [join] of an array of at least two strings splits at its last
    element. *)
Lemma join_removelast (l : list string) (x y : string) (sep : string) :
  JS.join (x :: y :: l) sep
  = JS.join (removelast (x :: y :: l)) sep ++ sep ++ last (x :: y :: l) "".
Proof.
  revert x y. induction l as [|z l IH]; intros x y.
  - reflexivity.
  - change (JS.join (x :: y :: z :: l) sep) with (x ++ sep ++ JS.join (y :: z :: l) sep).
    rewrite IH.
    change (removelast (x :: y :: z :: l)) with (x :: removelast (y :: z :: l)).
    change (last (x :: y :: z :: l) "") with (last (y :: z :: l) "").
    destruct (removelast (y :: z :: l)) as [|u r] eqn:Er.
    + simpl in Er. destruct l; discriminate.
    + change (JS.join (x :: u :: r) sep) with (x ++ sep ++ JS.join (u :: r) sep).
      now rewrite !append_assoc.
Qed.

(** Every segment is free of the separator. *)
Lemma split_segments_no_sep (s : string) (c : ascii) :
  Forall (fun x => JS.indexOf x (String c "") = -1) (JS.split s c).
Proof.
  induction s as [|a s IH]; simpl.
  - constructor; [reflexivity|constructor].
  - destruct (Ascii.eqb a c) eqn:E.
    + constructor; [reflexivity|exact IH].
    + destruct (JS.split s c) as [|y l]; [constructor; [|constructor]|].
      * rewrite indexOf_cons_char, Ascii.eqb_sym, E. reflexivity.
      * inversion IH as [|? ? Hy Hl]; subst. constructor; [|exact Hl].
        rewrite indexOf_cons_char, Ascii.eqb_sym, E, Hy. reflexivity.
Qed.

Lemma last_in (l : list string) (d : string) : l <> [] -> In (last l d) l.
Proof.
  induction l as [|x l IH]; intros H; [congruence|].
  destruct l as [|y l]; [now left|].
  right. apply IH. discriminate.
Qed.

Lemma lastDotSegment_no_dot (s : string) :
  JS.indexOf (lastDotSegment s) "." = -1.
Proof.
  unfold lastDotSegment.
  pose proof (split_segments_no_sep s ".") as H.
  rewrite Forall_forall in H. apply H.
  apply last_in, split_not_nil.
Qed.

(** A string with a dot is its leading segments, a dot, and its last
    segment. *)
Lemma split_at_last_dot (s : string) :
  0 <= JS.indexOf s "." ->
  s = withoutLastSegment s ++ "." ++ lastDotSegment s.
Proof.
  intros H. unfold withoutLastSegment, lastDotSegment.
  destruct (split_with_sep s "." H) as (x & y & l & E).
  rewrite E, <- join_removelast, <- E. symmetry. apply join_split.
Qed.

Lemma withoutLastSegment_no_dot (s : string) :
  JS.indexOf s "." < 0 -> withoutLastSegment s = "".
Proof.
  intros H. unfold withoutLastSegment. now rewrite (split_no_sep s "." H).
Qed.

Lemma lastDotSegment_no_dot_id (s : string) :
  JS.indexOf s "." < 0 -> lastDotSegment s = s.
Proof.
  intros H. unfold lastDotSegment. now rewrite (split_no_sep s "." H).
Qed.

Lemma drop_0 (s : string) : JS.drop 0 s = s.
Proof. now destruct s. Qed.

(** [substr] from one past the last dot is the last segment. *)
Lemma substr_after_last_dot (s : string) :
  0 <= JS.indexOf s "." ->
  JS.substr s (JS.lastIndexOf s "." + 1) = lastDotSegment s.
Proof.
  unfold JS.substr, lastDotSegment.
  induction s as [|a s IH]; intros H; [simpl in H; lia|].
  pose proof (lastIndexOf_lower_bound s ".") as Hl.
  pose proof (indexOf_lower_bound s ".") as Hi.
  pose proof (lastIndexOf_neg_iff s ".") as Hiff.
  rewrite lastIndexOf_cons_char.
  destruct (0 <=? JS.lastIndexOf s ".") eqn:E1.
  - apply Z.leb_le in E1.
    assert (Hs : 0 <= JS.indexOf s ".") by lia.
    specialize (IH Hs).
    replace (JS.lastIndexOf s "." + 1 + 1 <? 0) with false by (symmetry; apply Z.ltb_ge; lia).
    replace (JS.lastIndexOf s "." + 1 <? 0) with false in IH by (symmetry; apply Z.ltb_ge; lia).
    replace (Z.to_nat (JS.lastIndexOf s "." + 1 + 1))
      with (S (Z.to_nat (JS.lastIndexOf s "." + 1))) by lia.
    simpl JS.drop. rewrite IH.
    destruct (split_with_sep s "." Hs) as (x & y & l & E).
    simpl JS.split. rewrite E.
    destruct (Ascii.eqb a "."); reflexivity.
  - apply Z.leb_gt in E1.
    rewrite indexOf_cons_char in H.
    destruct (Ascii.eqb "." a) eqn:E2.
    + simpl JS.split. rewrite Ascii.eqb_sym, E2.
      rewrite (split_no_sep s ".") by lia. reflexivity.
    + destruct (JS.indexOf s "." <? 0) eqn:E3; lia.
Qed.

Lemma append_inj_l (a b c : string) : a ++ b = a ++ c -> b = c.
Proof.
  induction a as [|x a IH]; simpl; intros H; [exact H|].
  injection H as H. now apply IH.
Qed.

(** [indexOf] returns an occurrence, and no occurrence precedes it. *)
Lemma indexOf_found (s p : string) :
  0 <= JS.indexOf s p ->
  JS.startsWith (JS.drop (Z.to_nat (JS.indexOf s p)) s) p = true /\
  forall j, (j < Z.to_nat (JS.indexOf s p))%nat ->
            JS.startsWith (JS.drop j s) p = false.
Proof.
  induction s as [|a s IH]; simpl.
  - destruct (JS.startsWith "" p) eqn:E; [|lia].
    intros _. split; [exact E|]. intros j Hj. simpl in Hj. lia.
  - destruct (JS.startsWith (String a s) p) eqn:E.
    + intros _. split; [exact E|]. intros j Hj. simpl in Hj. lia.
    + destruct (JS.indexOf s p <? 0) eqn:E3; [lia|].
      apply Z.ltb_ge in E3. intros _.
      destruct (IH E3) as [H1 H2].
      replace (Z.to_nat (JS.indexOf s p + 1)) with (S (Z.to_nat (JS.indexOf s p))) by lia.
      split; [exact H1|].
      intros [|j] Hj; [exact E|]. simpl. apply H2. lia.
Qed.

Lemma indexOf_not_found (s p : string) :
  JS.indexOf s p < 0 -> forall j, JS.startsWith (JS.drop j s) p = false.
Proof.
  induction s as [|a s IH]; simpl.
  - destruct (JS.startsWith "" p) eqn:E; [lia|].
    intros _ [|j]; exact E.
  - destruct (JS.startsWith (String a s) p) eqn:E; [lia|].
    destruct (JS.indexOf s p <? 0) eqn:E3.
    + apply Z.ltb_lt in E3. intros _ [|j]; [exact E|]. simpl. now apply IH.
    + apply Z.ltb_ge in E3. lia.
Qed.

(** ** Facts about the registry and the task list *)

Lemma lookup_assign_same (k : string) (e : Entry) (r : list (string * Entry)) :
  lookup k (assign k e r) = Some e.
Proof.
  induction r as [|[k' e'] r IH]; simpl.
  - now rewrite String.eqb_refl.
  - destruct (String.eqb k k') eqn:E; simpl.
    + now rewrite String.eqb_refl.
    + now rewrite E.
Qed.

Lemma lookup_assign_other (k k' : string) (e : Entry) (r : list (string * Entry)) :
  k' <> k -> lookup k' (assign k e r) = lookup k' r.
Proof.
  intros Hne. induction r as [|[k0 e0] r IH]; simpl.
  - apply String.eqb_neq in Hne. now rewrite Hne.
  - destruct (String.eqb k k0) eqn:E; simpl.
    + apply String.eqb_eq in E. subst k0.
      apply String.eqb_neq in Hne. now rewrite Hne.
    + now rewrite IH.
Qed.

Lemma assign_assign (k : string) (e1 e2 : Entry) (r : list (string * Entry)) :
  assign k e2 (assign k e1 r) = assign k e2 r.
Proof.
  induction r as [|[k0 e0] r IH]; simpl.
  - now rewrite String.eqb_refl.
  - destruct (String.eqb k k0) eqn:E; simpl.
    + now rewrite String.eqb_refl.
    + now rewrite E, IH.
Qed.

(** Assignment never removes a property. *)
Lemma lookup_assign_some (k k' : string) (e : Entry) (r : list (string * Entry)) :
  lookup k' r <> None -> lookup k' (assign k e r) <> None.
Proof.
  intros H. destruct (String.eqb_spec k' k) as [->|Hne].
  - now rewrite lookup_assign_same.
  - now rewrite lookup_assign_other.
Qed.

Lemma map_fst_assign (k : string) (e : Entry) (r : list (string * Entry)) :
  lookup k r <> None -> map fst (assign k e r) = map fst r.
Proof.
  induction r as [|[k0 e0] r IH]; simpl; intros H; [congruence|].
  destruct (String.eqb k k0) eqn:E; simpl.
  - apply String.eqb_eq in E. now subst.
  - now rewrite IH.
Qed.

Lemma nth_error_last_task (p : list Task) (t : Task) :
  nth_error (p ++ [t])%list (Nat.pred (List.length (p ++ [t])%list)) = Some t.
Proof.
  rewrite length_app. simpl List.length.
  replace (Nat.pred (List.length p + 1)) with (List.length p) by lia.
  rewrite nth_error_app2 by lia. now rewrite Nat.sub_diag.
Qed.

Lemma removeNth_last_task (p : list Task) (t : Task) :
  removeNth (Nat.pred (List.length (p ++ [t])%list)) (p ++ [t])%list = p.
Proof.
  rewrite length_app. simpl List.length.
  replace (Nat.pred (List.length p + 1)) with (List.length p) by lia.
  induction p as [|x p IH]; simpl; [reflexivity|now rewrite IH].
Qed.

(** Settling the task registered last runs its reaction on the world
    without that task. *)
Lemma settleLast_runs (w : World) (p : list Task) (t : Task) (r : Response) (m : M unit) :
  pending w = (p ++ [t])%list ->
  react t r = Some m ->
  settleLast r w = Some (worldOf (m (setPending p w))).
Proof.
  intros Hp Hr. unfold settleLast, settle.
  rewrite Hp, nth_error_last_task, Hr, removeNth_last_task. reflexivity.
Qed.

(** ** What each step of [openDialog] does *)

Lemma openDialog_unfold (this : BaseController) (sName : string)
      (model : option ModelId) (upd : option bool)
      (cb : option Callback) (data : option Data) (w : World) :
  openDialog this sName model upd cb data w =
  match lookup (dialogKey this sName) (_fragments w) with
  | None =>
      Ok tt (mkWorld (assign (dialogKey this sName)
                             (mkEntry FragEmptyObject CtrlEmptyObject) (_fragments w))
                     (openDialogs w) (previousHash w) (viewModels w)
                     (aHistoryEntries w)
                     (pending w ++ [AwaitController (requestOf this sName model upd cb data)])
                     (trace w ++ [ControllerCreate (controllerName this sName)]))
  | Some entry => callOpen (fragment entry) w
  end.
Proof.
  unfold openDialog, dialogKey, requestOf, controllerName, fragmentName,
    dialogKey, dialogViewPath, dialogName.
  destruct (splitName this sName) as [aViewName sName'].
  unfold bind, readFragments. simpl.
  destruct (lookup _ (_fragments w)); reflexivity.
Qed.

(** The reaction to a created controller, on a world that has the
    entry: the entry is replaced by one whose fragment is what
    [sap.ui.require] returned. *)
Lemma controller_settled (w : World) (p : list Task) (rq : DialogRequest)
      (r : Response) (c : CtrlId) :
  pending w = (p ++ [AwaitController rq])%list ->
  lookup (rqId rq) (_fragments w) <> None ->
  settlesWith (rqThis rq) r c ->
  settleLast r w =
  Some (mkWorld (assign (rqId rq) (mkEntry FragUndefined CtrlAbsent) (_fragments w))
                (openDialogs w) (previousHash w) (viewModels w) (aHistoryEntries w)
                (p ++ [AwaitFragmentClass rq c])
                (trace w ++ [SapUiRequire "sap/ui/core/Fragment"])).
Proof.
  intros Hp Hl Hr.
  destruct (lookup (rqId rq) (_fragments w)) as [e|] eqn:El; [clear Hl|congruence].
  destruct Hr as [->|[-> ->]].
  - erewrite (settleLast_runs _ _ _ _ _ Hp); [|reflexivity].
    unfold tryCatch, onControllerCreated, writeControllerSlot, createDialogFragment,
      bind, readFragments, writeFragments, emit, enqueue, setFragments, setPending.
    simpl. rewrite El. simpl. now rewrite assign_assign.
  - erewrite (settleLast_runs _ _ _ _ _ Hp); [|reflexivity].
    unfold onControllerFailed, writeControllerSlot, createDialogFragment,
      bind, readFragments, writeFragments, emit, enqueue, setFragments, setPending.
    simpl. rewrite El. simpl. now rewrite assign_assign.
Qed.

Lemma fragment_class_ready (w : World) (p : list Task) (rq : DialogRequest) (c : CtrlId) :
  pending w = (p ++ [AwaitFragmentClass rq c])%list ->
  settleLast FragmentClassReady w =
  Some (mkWorld (_fragments w) (openDialogs w) (previousHash w) (viewModels w)
                (aHistoryEntries w) (p ++ [AwaitFragment rq c])
                (trace w ++ [FragmentLoad (rqId rq) (rqName rq) c])).
Proof.
  intros Hp. erewrite (settleLast_runs _ _ _ _ _ Hp); [|reflexivity]. reflexivity.
Qed.

Lemma fragment_loaded (w : World) (p : list Task) (rq : DialogRequest)
      (c : CtrlId) (d : DialogId) (hook : Hook) :
  pending w = (p ++ [AwaitFragment rq c])%list ->
  lookup (rqId rq) (_fragments w) <> None ->
  settleLast (FragmentResolved d hook) w =
  Some (mkWorld (assign (rqId rq) (mkEntry (FragDialog d) (CtrlRef c)) (_fragments w))
                (openDialogs w) (previousHash w) (viewModels w) (aHistoryEntries w)
                (if reachesTimer rq c hook then p ++ [AwaitTimer d] else p)
                (trace w ++ [AddDependent (getId (getView (rqThis rq))) d]
                         ++ setModelEvents rq d ++ hookEvents rq c d hook
                         ++ (if reachesTimer rq c hook
                             then [SetTimeout d 100] else []))).
Proof.
  intros Hp Hl.
  destruct (lookup (rqId rq) (_fragments w)) as [e|] eqn:El; [clear Hl|congruence].
  erewrite (settleLast_runs _ _ _ _ _ Hp); [|reflexivity].
  unfold onFragmentLoaded, callOnBeforeShow, writeFragmentSlot, writeControllerSlot,
    setModelEvents, hookEvents, reachesTimer,
    bind, readFragments, writeFragments, emit, enqueue, setFragments, setPending, ret, throw.
  simpl. rewrite El. simpl. rewrite lookup_assign_same. simpl.
  rewrite assign_assign.
  destruct (rqModel rq) as [m|]; [destruct (truthyFlag (rqUpdate rq))|];
    simpl; rewrite ?lookup_assign_same; simpl;
    destruct (Nat.eqb c (self (rqThis rq))); simpl;
    rewrite ?lookup_assign_same; simpl;
    destruct hook as [|[|]]; simpl; rewrite ?lookup_assign_same; simpl;
    rewrite <- ?app_assoc; reflexivity.
Qed.


(** ** Runs of [openDialog] on a key that is not yet registered *)

Lemma creation_until_load (this : BaseController) (sName : string)
      (model : option ModelId) (upd : option bool)
      (cb : option Callback) (data : option Data) (w : World)
      (rc : Response) (c : CtrlId) :
  lookup (dialogKey this sName) (_fragments w) = None ->
  settlesWith this rc c ->
  openDialogThen this sName model upd cb data [rc; FragmentClassReady] w =
  Some (mkWorld (assign (dialogKey this sName) (mkEntry FragUndefined CtrlAbsent)
                        (_fragments w))
                (openDialogs w) (previousHash w) (viewModels w) (aHistoryEntries w)
                (pending w ++ [AwaitFragment (requestOf this sName model upd cb data) c])
                (trace w ++ [ControllerCreate (controllerName this sName);
                             SapUiRequire "sap/ui/core/Fragment";
                             FragmentLoad (dialogKey this sName)
                                          (fragmentName this sName) c])).
Proof.
  intros Hk Hrc. unfold openDialogThen.
  rewrite openDialog_unfold, Hk. simpl worldOf. simpl settleAll.
  erewrite controller_settled with (p := pending w) (c := c);
    [|reflexivity|simpl; rewrite lookup_assign_same; discriminate|exact Hrc].
  erewrite fragment_class_ready; [|reflexivity].
  simpl. rewrite assign_assign, <- !app_assoc. reflexivity.
Qed.

Lemma creation_run (this : BaseController) (sName : string)
      (model : option ModelId) (upd : option bool)
      (cb : option Callback) (data : option Data) (w : World)
      (rc : Response) (c : CtrlId) (d : DialogId) (hook : Hook) :
  lookup (dialogKey this sName) (_fragments w) = None ->
  settlesWith this rc c ->
  openDialogThen this sName model upd cb data
                 [rc; FragmentClassReady; FragmentResolved d hook] w =
  Some (mkWorld (assign (dialogKey this sName) (mkEntry (FragDialog d) (CtrlRef c))
                        (_fragments w))
                (openDialogs w) (previousHash w) (viewModels w) (aHistoryEntries w)
                (if reachesTimer (requestOf this sName model upd cb data) c hook
                 then pending w ++ [AwaitTimer d] else pending w)
                (trace w ++ [ControllerCreate (controllerName this sName);
                             SapUiRequire "sap/ui/core/Fragment";
                             FragmentLoad (dialogKey this sName)
                                          (fragmentName this sName) c;
                             AddDependent (getId (getView this)) d]
                         ++ setModelEvents (requestOf this sName model upd cb data) d
                         ++ hookEvents (requestOf this sName model upd cb data) c d hook
                         ++ (if reachesTimer (requestOf this sName model upd cb data) c hook
                             then [SetTimeout d 100] else []))).
Proof.
  intros Hk Hrc. unfold openDialogThen.
  rewrite openDialog_unfold, Hk. simpl worldOf. simpl settleAll.
  erewrite controller_settled with (p := pending w) (c := c);
    [|reflexivity|simpl; rewrite lookup_assign_same; discriminate|exact Hrc].
  erewrite fragment_class_ready; [|reflexivity].
  erewrite fragment_loaded;
    [|reflexivity|simpl; rewrite lookup_assign_same; discriminate].
  simpl. rewrite !assign_assign, <- !app_assoc. reflexivity.
Qed.

(** ** Model access and navigation *)

(** C6: [getModel(s)] for a non-empty name [s] is
    [this.getView().getModel(s)]; with the name omitted or empty it is
    [this.getView().getModel()]; in every case it returns normally and
    leaves the world as it was. *)
Theorem getModel_delegates_to_view (this : BaseController) (w : World) :
  (forall (a : ascii) (s : string),
      getModel this (Some (String a s)) w
      = View_getModel (getView this) (Some (String a s)) w) /\
  getModel this None w = View_getModel (getView this) None w /\
  getModel this (Some "") w = View_getModel (getView this) None w /\
  (forall modelName : option string,
      exists m, getModel this modelName w = Ok m w).
Proof.
  split; [|split; [|split]].
  - intros a s. reflexivity.
  - reflexivity.
  - reflexivity.
  - intros modelName. unfold getModel, View_getModel.
    destruct (JS.truthyStr modelName); eexists; reflexivity.
Qed.

(** C7: [navTo(t, p, i, r)] makes the single call
    [Router.navTo(t, p, i, r)] on the router of
    [UIComponent.getRouterFor(this)] and changes nothing else. *)
Theorem navTo_passes_arguments_through (this : BaseController) (t : string)
        (p i : option JSObject) (r : option bool) (w : World) :
  navTo this t p i r w
  = Ok tt (addTrace [RouterNavTo (getRouterFor this) t p i r] w).
Proof. reflexivity. Qed.

(** C5: [onNavBack] goes back in the browser history exactly when the
    previous hash is not [undefined] (the empty string included);
    otherwise it navigates once to ["appHome"] with [{}], [{}] and
    [true], a route the manifest does not declare. *)
Theorem onNavBack_back_or_appHome (this : BaseController) (w : World) :
  (previousHash w <> None ->
   onNavBack this w = Ok tt (addTrace [WindowHistoryBack] w)) /\
  (previousHash w = Some "" ->
   onNavBack this w = Ok tt (addTrace [WindowHistoryBack] w)) /\
  (previousHash w = None ->
   onNavBack this w
   = Ok tt (addTrace [RouterNavTo (getRouterFor this) "appHome"
                                  (Some []) (Some []) (Some true)] w)) /\
  declaresRoute manifestRoutes "appHome" = false.
Proof.
  unfold onNavBack. split; [|split; [|split]].
  - destruct (previousHash w); [reflexivity|congruence].
  - intros ->. reflexivity.
  - intros ->. reflexivity.
  - reflexivity.
Qed.

Lemma onNavBack_back_or_appHome_witness :
  onNavBack homeController (mkWorld [] [] (Some "") [] [] [] [])
  = Ok tt (mkWorld [] [] (Some "") [] [] [] [WindowHistoryBack]) /\
  onNavBack homeController initialWorld
  = Ok tt (mkWorld [] [] None [] [] []
                   [RouterNavTo 10%nat "appHome" (Some []) (Some []) (Some true)]).
Proof.
  split.
  - apply (proj1 (onNavBack_back_or_appHome homeController
                    (mkWorld [] [] (Some "") [] [] [] []))).
    simpl. discriminate.
  - apply (proj1 (proj2 (proj2 (onNavBack_back_or_appHome homeController initialWorld)))).
    reflexivity.
Defined.

(** ** Dialog fragments *)




(** ** Names and keys computed by [openDialog] *)

Lemma splitName_dotted (this : BaseController) (sName : string) :
  0 < JS.indexOf sName "." ->
  splitName this sName = (JS.split sName ".", lastDotSegment sName).
Proof.
  intros H. unfold splitName.
  replace (0 <? JS.indexOf sName ".") with true by (symmetry; now apply Z.ltb_lt).
  rewrite substr_after_last_dot by lia. reflexivity.
Qed.

Lemma splitName_undotted (this : BaseController) (sName : string) :
  JS.indexOf sName "." <= 0 ->
  splitName this sName = (JS.split (getViewName (getView this)) ".", sName).
Proof.
  intros H. unfold splitName.
  replace (0 <? JS.indexOf sName ".") with false by (symmetry; now apply Z.ltb_ge).
  reflexivity.
Qed.

Lemma viewPath_folder (a : list string) :
  viewPath a = fragmentsFolder (JS.join (removelast a) ".") ++ ".".
Proof.
  unfold viewPath, fragmentsFolder, JS.pop.
  destruct (0 <? JS.indexOf (JS.toLowerCase (JS.join (removelast a) ".")) "fragments").
  - reflexivity.
  - now rewrite append_assoc.
Qed.

Lemma dialogKey_as_stated (this : BaseController) (sName : string) :
  JS.indexOf sName "." <> 0 -> dialogKey this sName = statedKey this sName.
Proof.
  intros H. unfold dialogKey, statedKey, dialogName.
  destruct (Z.ltb_spec 0 (JS.indexOf sName ".")) as [Hpos|Hneg].
  - now rewrite splitName_dotted.
  - rewrite splitName_undotted by lia. simpl.
    rewrite lastDotSegment_no_dot_id by lia. reflexivity.
Qed.

Lemma fragmentName_dotted (this : BaseController) (sName : string) :
  0 < JS.indexOf sName "." ->
  fragmentName this sName
  = fragmentsFolder (withoutLastSegment sName) ++ "." ++ lastDotSegment sName.
Proof.
  intros H. unfold fragmentName, dialogViewPath, dialogName.
  rewrite splitName_dotted by exact H. simpl.
  rewrite viewPath_folder, append_assoc. reflexivity.
Qed.

Lemma fragmentName_undotted (this : BaseController) (sName : string) :
  JS.indexOf sName "." <= 0 ->
  fragmentName this sName
  = fragmentsFolder (withoutLastSegment (getViewName (getView this))) ++ "." ++ sName.
Proof.
  intros H. unfold fragmentName, dialogViewPath, dialogName.
  rewrite splitName_undotted by exact H. simpl.
  rewrite viewPath_folder, append_assoc. reflexivity.
Qed.

(** The test [indexOf(p) > 0] holds when [p] occurs somewhere after the
    first character and the string does not begin with [p]. *)
Lemma indexOf_positive_iff (s p : string) :
  0 < JS.indexOf s p <->
  containsAtPositiveIndex s p = true /\ JS.startsWith s p = false.
Proof.
  destruct s as [|a s].
  - simpl. destruct (JS.startsWith "" p); split; try lia; intros [? ?]; discriminate.
  - unfold containsAtPositiveIndex.
    change (JS.indexOf (String a s) p) with
      (if JS.startsWith (String a s) p then 0
       else if JS.indexOf s p <? 0 then -1 else JS.indexOf s p + 1).
    pose proof (indexOf_lower_bound s p).
    destruct (JS.startsWith (String a s) p).
    + split; [lia|intros [_ ?]; discriminate].
    + destruct (JS.indexOf s p <? 0) eqn:E.
      * apply Z.ltb_lt in E. split; [lia|].
        intros [H1 _]. apply Z.leb_le in H1. lia.
      * apply Z.ltb_ge in E. split; [|lia].
        intros _. split; [now apply Z.leb_le|reflexivity].
Qed.

(** ** The claims about [openDialog] *)

(** The stated key is not the registered one for a name that begins
    with a dot: [indexOf(".")] is 0, the name is kept whole, and the
    entry is registered under ["home-.Foo"], not under ["home-Foo"]. *)
Lemma openDialog_leading_dot_key :
  ~ (forall (this : BaseController) (sName : string) (w1 : World),
        openDialog this sName None None None None initialWorld = Ok tt w1 ->
        lookup (statedKey this sName) (_fragments w1) <> None).
Proof.
  intros H.
  apply (H homeController ".Foo" _ eq_refl).
  reflexivity.
Qed.

(** C1, amended: for a name whose first dot is not at index 0 the key
    [getView().getId() + "-" + sName'] is the view id, a dash and the
    last dot-segment of the name; a name that begins with a dot is kept
    whole in the key.  A call on a key that is not
    registered registers the placeholder entry and asks for the
    controller; once the controller request is settled and the fragment
    is loaded, the entry under that key holds the loaded fragment and
    its controller.  A call on a key that is registered creates and
    loads nothing and leaves registry and task list alone; when the
    stored fragment is the loaded dialog, the call is exactly
    [open()] on it. *)
Theorem openDialog_creates_once_then_reopens
        (this : BaseController) (sName : string)
        (model : option ModelId) (upd : option bool)
        (cb : option Callback) (data : option Data) (w : World) :
  (JS.indexOf sName "." <> 0 ->
   dialogKey this sName = statedKey this sName) /\
  (JS.indexOf sName "." = 0 ->
   dialogKey this sName = getId (getView this) ++ "-" ++ sName) /\
  (lookup (dialogKey this sName) (_fragments w) = None ->
   (exists w1,
       openDialog this sName model upd cb data w = Ok tt w1 /\
       lookup (dialogKey this sName) (_fragments w1)
       = Some (mkEntry FragEmptyObject CtrlEmptyObject) /\
       trace w1 = (trace w ++ [ControllerCreate (controllerName this sName)])%list /\
       pending w1
       = (pending w ++ [AwaitController (requestOf this sName model upd cb data)])%list) /\
   (forall (rc : Response) (c : CtrlId) (d : DialogId) (hook : Hook),
       settlesWith this rc c ->
       exists w3,
         openDialogThen this sName model upd cb data
                        [rc; FragmentClassReady; FragmentResolved d hook] w = Some w3 /\
         In (FragmentLoad (dialogKey this sName) (fragmentName this sName) c) (trace w3) /\
         lookup (dialogKey this sName) (_fragments w3)
         = Some (mkEntry (FragDialog d) (CtrlRef c)))) /\
  (forall e : Entry,
      lookup (dialogKey this sName) (_fragments w) = Some e ->
      let w' := worldOf (openDialog this sName model upd cb data w) in
      _fragments w' = _fragments w /\
      pending w' = pending w /\
      (forall ev, In ev (trace w') ->
                  In ev (trace w) \/ exists d, fragment e = FragDialog d /\ ev = DialogOpen d) /\
      (forall d, fragment e = FragDialog d ->
                 openDialog this sName model upd cb data w
                 = Ok tt (mkWorld (_fragments w)
                                  (if isOpenIn (openDialogs w) d then openDialogs w
                                   else openDialogs w ++ [d])
                                  (previousHash w) (viewModels w) (aHistoryEntries w)
                                  (pending w) (trace w ++ [DialogOpen d])))).
Proof.
  split; [apply dialogKey_as_stated|]. split; [|split].
  - intros H0. unfold dialogKey, dialogName.
    rewrite splitName_undotted by lia. reflexivity.
  - intros Hk. split.
    + rewrite openDialog_unfold, Hk. eexists. split; [reflexivity|].
      simpl. rewrite lookup_assign_same. now repeat split.
    + intros rc c d hook Hrc. eexists.
      split; [apply creation_run; [exact Hk|exact Hrc]|].
      simpl. split; [|apply lookup_assign_same].
      apply in_or_app. right. simpl. tauto.
  - intros e Hk. rewrite openDialog_unfold, Hk.
    destruct (fragment e) as [| |d]; simpl.
    + repeat split; try tauto. intros d Hd. discriminate.
    + repeat split; try tauto. intros d Hd. discriminate.
    + repeat split.
      * intros ev Hev. apply in_app_or in Hev. destruct Hev as [Hev|[<-|[]]].
        -- now left.
        -- right. exists d. now split.
      * intros d' Hd. injection Hd as <-. reflexivity.
Qed.

Lemma openDialog_creates_once_then_reopens_witness :
  dialogKey homeController "view.login.Login" = "home-Login" /\
  dialogKey homeController ".Foo" = "home-.Foo" /\
  exists w3,
    openDialogThen homeController "view.login.Login" None None None None
                   [ControllerRejected; FragmentClassReady; FragmentResolved 7%nat (HookRuns true)]
                   initialWorld = Some w3 /\
    lookup "home-Login" (_fragments w3) = Some (mkEntry (FragDialog 7%nat) (CtrlRef 1%nat)).
Proof.
  pose proof (openDialog_creates_once_then_reopens
                homeController "view.login.Login" None None None None initialWorld)
    as (Hkey & _ & Hfirst & _).
  split; [|split].
  - rewrite Hkey; [reflexivity|simpl; discriminate].
  - apply (proj1 (proj2 (openDialog_creates_once_then_reopens
                           homeController ".Foo" None None None None initialWorld))).
    reflexivity.
  - destruct (proj2 (Hfirst eq_refl) ControllerRejected 1%nat 7%nat (HookRuns true))
      as (w3 & H1 & _ & H3).
    + right. split; reflexivity.
    + exists w3. split; [exact H1|exact H3].
Defined.

(** The stated fragment name is not the loaded one for a name that
    begins with a dot: the name has no dot at a positive position, the
    stated name ends in the substring after the dot, the code keeps the
    whole name. *)
Lemma openDialog_leading_dot_fragment_name :
  ~ (forall (this : BaseController) (sName : string) (rc : Response) (w2 : World)
            (id name : string) (c : CtrlId),
        openDialogThen this sName None None None None [rc; FragmentClassReady]
                       initialWorld = Some w2 ->
        In (FragmentLoad id name c) (trace w2) ->
        name = statedFragmentName this sName).
Proof.
  intros H.
  specialize (H homeController ".Foo" ControllerRejected _
                "home-.Foo" "com.ts.tsReport.view.fragments..Foo" 1%nat eq_refl).
  simpl in H. discriminate H. tauto.
Qed.

(** C3, amended: a first call ends in [Fragment.load] of
    [fragmentName].  For a name whose first dot is at a positive index
    that name is [P'.C], where the name itself is [P.C], [C] has no dot,
    and [P'] is [P], followed by [.fragments] unless the first
    occurrence of ["fragments"] in the lower-cased [P] is at a positive
    index (that is: it occurs after the first character and [P] does
    not begin with it).  For every other name (no dot, or a dot in
    front) the name is kept whole and [P] is the view name without its
    last segment. *)
Theorem openDialog_fragment_name
        (this : BaseController) (sName : string)
        (model : option ModelId) (upd : option bool)
        (cb : option Callback) (data : option Data) (w : World) :
  (lookup (dialogKey this sName) (_fragments w) = None ->
   forall (rc : Response) (c : CtrlId),
     settlesWith this rc c ->
     exists w2,
       openDialogThen this sName model upd cb data [rc; FragmentClassReady] w = Some w2 /\
       trace w2 = (trace w ++ [ControllerCreate (controllerName this sName);
                               SapUiRequire "sap/ui/core/Fragment";
                               FragmentLoad (dialogKey this sName)
                                            (fragmentName this sName) c])%list) /\
  (0 < JS.indexOf sName "." ->
   sName = withoutLastSegment sName ++ "." ++ lastDotSegment sName /\
   JS.indexOf (lastDotSegment sName) "." = -1 /\
   fragmentName this sName
   = fragmentsFolder (withoutLastSegment sName) ++ "." ++ lastDotSegment sName) /\
  (JS.indexOf sName "." <= 0 ->
   fragmentName this sName
   = fragmentsFolder (withoutLastSegment (getViewName (getView this))) ++ "." ++ sName) /\
  (forall P : string,
      fragmentsFolder P
      = if containsAtPositiveIndex (JS.toLowerCase P) "fragments"
           && negb (JS.startsWith (JS.toLowerCase P) "fragments")
        then P else P ++ ".fragments").
Proof.
  split; [|split; [|split]].
  - intros Hk rc c Hrc. eexists. split; [apply creation_until_load; [exact Hk|exact Hrc]|reflexivity].
  - intros H. split; [apply split_at_last_dot; lia|].
    split; [apply lastDotSegment_no_dot|now apply fragmentName_dotted].
  - apply fragmentName_undotted.
  - intros P. unfold fragmentsFolder.
    pose proof (indexOf_positive_iff (JS.toLowerCase P) "fragments") as Hiff.
    destruct (Z.ltb_spec 0 (JS.indexOf (JS.toLowerCase P) "fragments")) as [Hp|Hn].
    + destruct (proj1 Hiff Hp) as [-> ->]. reflexivity.
    + destruct (containsAtPositiveIndex (JS.toLowerCase P) "fragments") eqn:E1;
        destruct (JS.startsWith (JS.toLowerCase P) "fragments") eqn:E2;
        try reflexivity.
      exfalso. assert (0 < JS.indexOf (JS.toLowerCase P) "fragments") by (apply Hiff; now split).
      lia.
Qed.

Lemma openDialog_fragment_name_witness :
  fragmentName homeController "view.login.Login" = "view.login.fragments.Login" /\
  fragmentName homeController "Login" = "com.ts.tsReport.view.fragments.Login" /\
  exists w2,
    openDialogThen homeController "app.Fragments.Login" None None None None
                   [ControllerRejected; FragmentClassReady] initialWorld = Some w2 /\
    trace w2 = [ControllerCreate "app.Fragments.Login";
                SapUiRequire "sap/ui/core/Fragment";
                FragmentLoad "home-Login" "app.Fragments.Login" 1%nat].
Proof.
  split; [|split].
  - destruct (openDialog_fragment_name
                homeController "view.login.Login" None None None None initialWorld)
      as (_ & Hdotted & _).
    destruct Hdotted as (_ & _ & ->); reflexivity.
  - destruct (openDialog_fragment_name
                homeController "Login" None None None None initialWorld)
      as (_ & _ & Hplain & _).
    rewrite Hplain; [reflexivity|simpl; lia].
  - destruct (openDialog_fragment_name
                homeController "app.Fragments.Login" None None None None initialWorld)
      as (Hload & _).
    destruct (Hload eq_refl ControllerRejected 1%nat) as (w2 & H1 & H2).
    + right. split; reflexivity.
    + exists w2. split; [exact H1|exact H2].
Defined.

Lemma truthyFlag_true (b : option bool) : truthyFlag b = true <-> b = Some true.
Proof. destruct b as [[|]|]; simpl; split; congruence. Qed.

(** Whatever task the framework settles, and in whatever world, the
    only reaction that sets a model on a fragment is the one of
    [Fragment.load], and only for a request made with a model and a
    truthy [updateModelAlways]. *)
Lemma settle_setModel_origin (i : nat) (r : Response) (w w' : World) :
  settle i r w = Some w' ->
  exists evs,
    trace w' = (trace w ++ evs)%list /\
    forall d m,
      In (FragmentSetModel d m) evs ->
      exists rq c hook,
        nth_error (pending w) i = Some (AwaitFragment rq c) /\
        r = FragmentResolved d hook /\
        rqModel rq = Some m /\ rqUpdate rq = Some true.
Proof.
  unfold settle. destruct (nth_error (pending w) i) as [t|] eqn:Et; [|discriminate].
  destruct t as [rq|rq c|rq c|d0|this]; destruct r; simpl; try discriminate;
    intros [= <-].
  - (* Controller.create resolved *)
    unfold tryCatch, onControllerCreated, onControllerFailed, writeControllerSlot,
      createDialogFragment, bind, readFragments, writeFragments, emit, enqueue, throw, setPending, setFragments.
    simpl. destruct (lookup (rqId rq) (_fragments w)) eqn:El; simpl; rewrite ?El; simpl.
    + eexists. split; [reflexivity|]. simpl. intros d m [H|[]]. discriminate H.
    + exists []. split; [now rewrite app_nil_r|]. intros d m [].
  - (* Controller.create rejected *)
    unfold onControllerFailed, writeControllerSlot,
      createDialogFragment, bind, readFragments, writeFragments, emit, enqueue, throw, setPending, setFragments.
    simpl. destruct (lookup (rqId rq) (_fragments w)) eqn:El; simpl; rewrite ?El; simpl.
    + eexists. split; [reflexivity|]. simpl. intros d m [H|[]]. discriminate H.
    + exists []. split; [now rewrite app_nil_r|]. intros d m [].
  - (* the Fragment class is available *)
    eexists. split; [reflexivity|]. simpl. intros d m [H|[]]. discriminate H.
  - (* Fragment.load resolved *)
    unfold onFragmentLoaded, callOnBeforeShow, writeFragmentSlot, writeControllerSlot,
      bind, readFragments, writeFragments, emit, enqueue, ret, throw, setPending, setFragments.
    simpl. destruct (lookup (rqId rq) (_fragments w)) eqn:El; simpl; rewrite ?El; simpl.
    + rewrite lookup_assign_same. simpl.
      destruct (rqModel rq) as [m0|] eqn:Em;
        [destruct (truthyFlag (rqUpdate rq)) eqn:Eu|];
        simpl; destruct (Nat.eqb c (self (rqThis rq))); simpl;
        rewrite ?lookup_assign_same; simpl;
        try (destruct hook as [|[|]]); simpl;
        rewrite <- ?app_assoc; simpl;
        (eexists; split; [reflexivity|]); simpl;
        intros d m Hin;
        repeat (destruct Hin as [Hin|Hin]; try discriminate Hin); try contradiction;
        injection Hin as <- <-;
        (exists rq, c; eexists; split; [reflexivity|]; split; [reflexivity|];
         split; [first [reflexivity|exact Em]|now apply truthyFlag_true]).
    + exists []. split; [now rewrite app_nil_r|]. intros d m [].
  - (* Fragment.load rejected *)
    exists []. split; [now rewrite app_nil_r|]. intros d m [].
  - (* the timer fired *)
    eexists. split; [reflexivity|]. simpl. intros d m [H|[]]. discriminate H.
  - (* the shell service is available *)
    eexists. split; [reflexivity|]. simpl. intros d m [H|[]]. discriminate H.
Qed.

(** C10: the call itself never sets a model, whatever its arguments and
    whatever the registry holds; on first creation the calls made up
    to and including the reaction to the loaded fragment contain
    [fragment.setModel(model)] exactly when a model was passed and
    [updateModelAlways] is [true]; and no other reaction ever sets a
    fragment's model. *)
Theorem openDialog_sets_model_only_if_updateModelAlways
        (this : BaseController) (sName : string)
        (model : option ModelId) (upd : option bool)
        (cb : option Callback) (data : option Data) (w : World) :
  (forall d m,
      In (FragmentSetModel d m)
         (trace (worldOf (openDialog this sName model upd cb data w))) ->
      In (FragmentSetModel d m) (trace w)) /\
  (lookup (dialogKey this sName) (_fragments w) = None ->
   forall (rc : Response) (c : CtrlId) (d : DialogId) (hook : Hook),
     settlesWith this rc c ->
     exists w3 evs,
       openDialogThen this sName model upd cb data
                      [rc; FragmentClassReady; FragmentResolved d hook] w = Some w3 /\
       trace w3 = (trace w ++ evs)%list /\
       forall d' m,
         In (FragmentSetModel d' m) evs <->
         d' = d /\ model = Some m /\ upd = Some true) /\
  (forall (i : nat) (r : Response) (w' : World),
      settle i r w = Some w' ->
      exists evs,
        trace w' = (trace w ++ evs)%list /\
        forall d m,
          In (FragmentSetModel d m) evs ->
          exists rq c hook,
            nth_error (pending w) i = Some (AwaitFragment rq c) /\
            r = FragmentResolved d hook /\
            rqModel rq = Some m /\ rqUpdate rq = Some true).
Proof.
  split; [|split].
  - intros d m. rewrite openDialog_unfold.
    destruct (lookup (dialogKey this sName) (_fragments w)) as [e|]; simpl.
    + destruct (fragment e); simpl; try tauto.
      intros H. apply in_app_or in H. destruct H as [H|[H|[]]]; [exact H|discriminate].
    + intros H. apply in_app_or in H. destruct H as [H|[H|[]]]; [exact H|discriminate].
  - intros Hk rc c d hook Hrc. eexists. eexists.
    split; [apply creation_run; [exact Hk|exact Hrc]|].
    split; [reflexivity|].
    intros d' m. unfold setModelEvents, hookEvents, reachesTimer. simpl.
    destruct model as [m0|]; [destruct upd as [[|]|]|]; simpl;
      destruct (Nat.eqb c (self this)); simpl; destruct hook as [|[|]]; simpl;
      split; intros H;
      repeat (destruct H as [H|H]; try discriminate H); try contradiction;
      try (injection H as <- <-; now repeat split);
      try (destruct H as (-> & [= <-] & _); tauto);
      try (destruct H as (_ & _ & H); discriminate H);
      try (destruct H as (_ & H & _); discriminate H).
  - intros i r w'. apply settle_setModel_origin.
Qed.

Lemma openDialog_sets_model_only_if_updateModelAlways_witness :
  exists w3 evs,
    openDialogThen homeController "Login" (Some 3%nat) None None None
                   [ControllerResolved 9%nat; FragmentClassReady;
                    FragmentResolved 7%nat (HookRuns true)] initialWorld = Some w3 /\
    trace w3 = evs /\
    ~ In (FragmentSetModel 7%nat 3%nat) evs.
Proof.
  destruct (proj1 (proj2 (openDialog_sets_model_only_if_updateModelAlways
                            homeController "Login" (Some 3%nat) None None None
                            initialWorld))
                  eq_refl (ControllerResolved 9%nat) 9%nat 7%nat (HookRuns true))
    as (w3 & evs & H1 & H2 & H3).
  - left. reflexivity.
  - exists w3, evs. split; [exact H1|]. split; [exact H2|].
    intros Hin. apply H3 in Hin. destruct Hin as (_ & _ & Hupd). discriminate Hupd.
Defined.

(** ** [getFragment] *)

Lemma settleAll_reachable (rs : list Response) (w w' : World) :
  Reachable w -> settleAll rs w = Some w' -> Reachable w'.
Proof.
  revert w. induction rs as [|r rs IH]; simpl; intros w HR H.
  - now injection H as <-.
  - unfold settleLast in H.
    destruct (settle _ r w) as [w1|] eqn:E; [|discriminate].
    eapply IH; [|exact H]. eapply R_settle; eassumption.
Qed.

Lemma openDialogThen_reachable (this : BaseController) (sName : string)
      (model : option ModelId) (upd : option bool)
      (cb : option Callback) (data : option Data)
      (rs : list Response) (w w' : World) :
  Reachable w ->
  openDialogThen this sName model upd cb data rs w = Some w' ->
  Reachable w'.
Proof.
  intros HR. apply settleAll_reachable. now apply R_openDialog.
Qed.

(** The registry is global: after the view ["home-x.y"] has registered
    its fragment ["Dlg"], the view ["home"] opens ["x.y-Dlg"] and then
    finds an entry under the full dotted name. *)
Lemma getFragment_full_name_found :
  ~ (forall (this : BaseController) (n : string) (w w3 : World)
            (rc : Response) (d : DialogId),
        0 < JS.indexOf n "." ->
        Reachable w ->
        openDialogThen this n None None None None
                       [rc; FragmentClassReady; FragmentResolved d (HookRuns true)] w = Some w3 ->
        getFragment this n w3 = Ok None w3).
Proof.
  intros H.
  destruct (openDialogThen otherController "Dlg" None None None None
              [ControllerRejected; FragmentClassReady; FragmentResolved 7%nat (HookRuns true)]
              initialWorld) as [w|] eqn:Ew; [|vm_compute in Ew; discriminate Ew].
  assert (HR : Reachable w).
  { eapply openDialogThen_reachable; [|exact Ew]. apply R_loaded. }
  destruct (openDialogThen homeController "x.y-Dlg" None None None None
              [ControllerRejected; FragmentClassReady; FragmentResolved 8%nat (HookRuns true)]
              w) as [w3|] eqn:Ew3.
  - assert (Hpos : 0 < JS.indexOf "x.y-Dlg" ".") by (vm_compute; reflexivity).
    specialize (H homeController "x.y-Dlg" w w3 ControllerRejected 8%nat Hpos HR Ew3).
    vm_compute in Ew. injection Ew as <-.
    vm_compute in Ew3. injection Ew3 as <-.
    vm_compute in H. discriminate H.
  - vm_compute in Ew. injection Ew as <-. vm_compute in Ew3. discriminate Ew3.
Qed.

Lemma openDialog_registered_frame (this : BaseController) (sName : string)
      (model : option ModelId) (upd : option bool)
      (cb : option Callback) (data : option Data) (w : World) (e : Entry) :
  lookup (dialogKey this sName) (_fragments w) = Some e ->
  _fragments (worldOf (openDialog this sName model upd cb data w)) = _fragments w.
Proof.
  intros Hk. rewrite openDialog_unfold, Hk.
  destruct (fragment e); reflexivity.
Qed.

Lemma dotted_name_not_its_last_segment (n : string) :
  0 < JS.indexOf n "." -> n <> lastDotSegment n.
Proof.
  intros H E. pose proof (lastDotSegment_no_dot n) as Hn.
  rewrite <- E in Hn. lia.
Qed.

(** C9, amended: after a first [openDialog(n)] with a dotted [n] has
    run to the loaded fragment, [getFragment(s)] reads the property
    stored by that call exactly when [s] is the substring of [n] after
    its last dot, and then returns the loaded fragment with its
    controller; [n] itself is not that substring.  For every other [s],
    the full name included, [getFragment(s)] returns what the registry
    held under [getId() + "-" + s] before the call: [undefined] when
    nothing was registered under that key.  When the key of [n] was
    registered already, [getFragment] of the last segment returns the
    entry that was there. *)
Theorem getFragment_reads_last_segment
        (this : BaseController) (n : string)
        (model : option ModelId) (upd : option bool)
        (cb : option Callback) (data : option Data) (w : World) :
  0 < JS.indexOf n "." ->
  dialogKey this n = getId (getView this) ++ "-" ++ lastDotSegment n /\
  (forall s, getId (getView this) ++ "-" ++ s = dialogKey this n <-> s = lastDotSegment n) /\
  n <> lastDotSegment n /\
  (lookup (dialogKey this n) (_fragments w) = None ->
   forall (rc : Response) (c : CtrlId) (d : DialogId) (hook : Hook),
     settlesWith this rc c ->
     exists w3,
       openDialogThen this n model upd cb data
                      [rc; FragmentClassReady; FragmentResolved d hook] w = Some w3 /\
       getFragment this (lastDotSegment n) w3
       = Ok (Some (mkEntry (FragDialog d) (CtrlRef c))) w3 /\
       (forall s, s <> lastDotSegment n ->
                  getFragment this s w3
                  = Ok (lookup (getId (getView this) ++ "-" ++ s) (_fragments w)) w3) /\
       (lookup (getId (getView this) ++ "-" ++ n) (_fragments w) = None ->
        getFragment this n w3 = Ok None w3)) /\
  (forall e : Entry,
      lookup (dialogKey this n) (_fragments w) = Some e ->
      let w' := worldOf (openDialog this n model upd cb data w) in
      getFragment this (lastDotSegment n) w' = Ok (Some e) w').
Proof.
  intros Hpos.
  assert (Hkey : dialogKey this n = getId (getView this) ++ "-" ++ lastDotSegment n).
  { rewrite dialogKey_as_stated by lia. reflexivity. }
  assert (Hinj : forall s, getId (getView this) ++ "-" ++ s = dialogKey this n
                           <-> s = lastDotSegment n).
  { intros s. rewrite Hkey. split.
    - intros H. apply append_inj_l in H. simpl in H. now injection H.
    - now intros ->. }
  split; [exact Hkey|]. split; [exact Hinj|].
  split; [now apply dotted_name_not_its_last_segment|]. split.
  - intros Hk rc c d hook Hrc. eexists.
    split; [apply creation_run; [exact Hk|exact Hrc]|].
    unfold getFragment, readFragments. cbn [_fragments].
    assert (Hother : forall s, s <> lastDotSegment n ->
              lookup (getId (getView this) ++ "-" ++ s)
                     (assign (dialogKey this n) (mkEntry (FragDialog d) (CtrlRef c))
                             (_fragments w))
              = lookup (getId (getView this) ++ "-" ++ s) (_fragments w)).
    { intros s Hs. apply lookup_assign_other. intros E. apply Hs. now apply Hinj. }
    split; [|split].
    + rewrite <- Hkey, lookup_assign_same. reflexivity.
    + intros s Hs. now rewrite Hother.
    + intros Hn. rewrite Hother by now apply dotted_name_not_its_last_segment.
      now rewrite Hn.
  - intros e Hk w'. unfold getFragment, readFragments. subst w'.
    rewrite <- Hkey, (openDialog_registered_frame _ _ _ _ _ _ _ _ Hk), Hk. reflexivity.
Qed.

Lemma getFragment_reads_last_segment_witness :
  exists w3,
    openDialogThen homeController "view.login.Login" None None None None
                   [ControllerRejected; FragmentClassReady; FragmentResolved 7%nat (HookRuns true)]
                   initialWorld = Some w3 /\
    getFragment homeController "Login" w3
    = Ok (Some (mkEntry (FragDialog 7%nat) (CtrlRef 1%nat))) w3 /\
    getFragment homeController "view.login.Login" w3 = Ok None w3.
Proof.
  assert (Hpos : 0 < JS.indexOf "view.login.Login" ".") by reflexivity.
  destruct (getFragment_reads_last_segment homeController "view.login.Login"
              None None None None initialWorld Hpos) as (_ & _ & _ & Hfirst & _).
  destruct (Hfirst eq_refl ControllerRejected 1%nat 7%nat (HookRuns true)) as (w3 & H1 & H2 & _ & H4).
  - right. split; reflexivity.
  - exists w3. split; [exact H1|]. split; [exact H2|]. apply H4. reflexivity.
Defined.

(** ** [closeFragments] *)

(** One iteration of the loop on a registered key: it never throws, and
    it calls [close()] on the dialog stored under the key when that
    dialog is open. *)
Lemma closeIfOpen_registered (k : string) (e : Entry) (w : World) :
  lookup k (_fragments w) = Some e ->
  closeIfOpen k w =
  Ok tt (match fragment e with
         | FragDialog d =>
             if isOpenIn (openDialogs w) d
             then mkWorld (_fragments w) (openDialogs w)
                          (previousHash w) (viewModels w) (aHistoryEntries w)
                          (pending w) (trace w ++ [DialogClose d])
             else w
         | _ => w
         end).
Proof.
  intros Hk. unfold closeIfOpen, bind, readFragments. rewrite Hk.
  destruct (fragment e) as [| |d]; simpl; try reflexivity.
  unfold ret. destruct (isOpenIn (openDialogs w) d); reflexivity.
Qed.

Lemma lookup_in_keys (r : list (string * Entry)) (k : string) :
  In k (map fst r) -> lookup k r <> None.
Proof.
  induction r as [|[k' e] r IH]; simpl; [tauto|].
  intros [->|H].
  - now rewrite String.eqb_refl.
  - destruct (String.eqb k k'); [discriminate|now apply IH].
Qed.

Lemma dialogAt_registered (r : list (string * Entry)) (k : string) (e : Entry) :
  lookup k r = Some e ->
  dialogAt r k = match fragment e with
                 | FragDialog d => Some d
                 | _ => None
                 end.
Proof.
  intros H. unfold dialogAt. rewrite H. destruct e as [[| |d] c]; reflexivity.
Qed.

Lemma closeCalls_in (r : list (string * Entry)) (o : list DialogId)
      (ks : list string) (ev : Event) :
  In ev (closeCalls r o ks) <->
  exists k d, In k ks /\ dialogAt r k = Some d /\
              isOpenIn o d = true /\ ev = DialogClose d.
Proof.
  unfold closeCalls. rewrite in_flat_map. split.
  - intros (k & Hin & Hev). destruct (dialogAt r k) as [d|] eqn:Ed; [|destruct Hev].
    destruct (isOpenIn o d) eqn:Eo; [|destruct Hev].
    destruct Hev as [<-|[]]. exists k, d. now repeat split.
  - intros (k & d & Hin & Hd & Ho & ->). exists k. split; [exact Hin|].
    rewrite Hd, Ho. now left.
Qed.

(** The loop over registered keys never throws; it changes nothing but
    the trace, to which it adds the [close()] calls in the order of the
    keys. *)
Lemma closing_loop (ks : list string) (w : World) :
  (forall k, In k ks -> lookup k (_fragments w) <> None) ->
  forEach ks closeIfOpen w
  = Ok tt (mkWorld (_fragments w) (openDialogs w) (previousHash w) (viewModels w)
                   (aHistoryEntries w) (pending w)
                   (trace w ++ closeCalls (_fragments w) (openDialogs w) ks)).
Proof.
  revert w. induction ks as [|k ks IH]; intros w Hks.
  - simpl. unfold ret. rewrite app_nil_r. now destruct w.
  - destruct (lookup k (_fragments w)) as [e|] eqn:Ek;
      [|exfalso; apply (Hks k); [now left|exact Ek]].
    simpl forEach. unfold bind at 1. rewrite (closeIfOpen_registered _ _ _ Ek).
    assert (Hrest : forall k0, In k0 ks -> lookup k0 (_fragments w) <> None)
      by (intros k0 H; apply Hks; now right).
    unfold closeCalls. cbn [flat_map]. fold (closeCalls (_fragments w) (openDialogs w) ks).
    rewrite (dialogAt_registered _ _ _ Ek).
    destruct (fragment e) as [| |d]; cbv beta iota.
    + rewrite (IH w Hrest). reflexivity.
    + rewrite (IH w Hrest). reflexivity.
    + destruct (isOpenIn (openDialogs w) d); cbv beta iota.
      * rewrite IH by exact Hrest. cbn [_fragments openDialogs previousHash viewModels
          aHistoryEntries pending trace]. rewrite <- app_assoc. reflexivity.
      * rewrite (IH w Hrest). reflexivity.
Qed.

(** C4: [closeFragments] never throws, whatever the registry holds
    (placeholder entries included); it leaves the registry and
    everything but the dialogs' open state unchanged; the calls it
    makes are exactly one [close()] for the dialogs that are registered
    under some key, by whichever controller, and are open. *)
Theorem closeFragments_closes_open_dialogs (this : BaseController) (w : World) :
  exists evs o,
    closeFragments this w
    = Ok tt (mkWorld (_fragments w) o (previousHash w) (viewModels w)
                     (aHistoryEntries w) (pending w) (trace w ++ evs)) /\
    (forall ev,
        In ev evs <->
        exists k d, dialogAt (_fragments w) k = Some d /\
                    isOpenIn (openDialogs w) d = true /\ ev = DialogClose d) /\
    (forall this' : BaseController, closeFragments this' w = closeFragments this w).
Proof.
  exists (closeCalls (_fragments w) (openDialogs w) (map fst (_fragments w))),
    (openDialogs w).
  split; [apply closing_loop, lookup_in_keys|]. split; [|reflexivity].
  intros ev. rewrite closeCalls_in. split.
  - intros (k & d & _ & H). now exists k, d.
  - intros (k & d & Hd & H). exists k, d. split; [|now split].
    unfold dialogAt in Hd.
    destruct (lookup k (_fragments w)) eqn:E; [|discriminate].
    clear -E. induction (_fragments w) as [|[k' e'] r IH]; simpl in *; [discriminate|].
    destruct (String.eqb_spec k k') as [->|Hne]; [now left|right; now apply IH].
Qed.

(** ** [addHistoryEntry] *)

Lemma existsb_sameIntent_false (oEntry : HEntry) (h : list HEntry) :
  existsb (sameIntent oEntry) h = false -> ~ In (intent oEntry) (map intent h).
Proof.
  induction h as [|x h IH]; simpl; [tauto|].
  intros H. apply orb_false_elim in H. destruct H as [Hx Hh].
  intros [E|Hin]; [|now apply IH].
  unfold sameIntent in Hx. rewrite E, String.eqb_refl in Hx. discriminate Hx.
Qed.

Lemma NoDup_intents_push (oEntry : HEntry) (h : list HEntry) :
  NoDup (map intent h) ->
  existsb (sameIntent oEntry) h = false ->
  NoDup (map intent (h ++ [oEntry])).
Proof.
  intros Hnd Hex. rewrite map_app. simpl.
  apply NoDup_app; [exact Hnd|repeat constructor; tauto|].
  intros a Ha [<-|[]]. now apply (existsb_sameIntent_false oEntry h).
Qed.

(** What a call does, written out. *)
Lemma addHistoryEntry_unfold (this : BaseController) (oEntry : HEntry)
      (bReset : bool) (w : World) :
  addHistoryEntry this oEntry bReset w =
  let before := if bReset then [] else historyOf this w in
  let hs := if bReset then (self this, []) :: aHistoryEntries w
            else aHistoryEntries w in
  if existsb (sameIntent oEntry) before
  then Ok tt w
  else Ok tt (mkWorld (_fragments w) (openDialogs w) (previousHash w) (viewModels w)
                      ((self this, (before ++ [oEntry])%list) :: hs)
                      (pending w ++ [AwaitShellService this])
                      (trace w ++ [GetService "ShellUIService"])).
Proof.
  unfold addHistoryEntry, bind, putHistory, getHistory, historyOf, emit, enqueue, ret,
    setHistories.
  destruct bReset; simpl.
  - rewrite Nat.eqb_refl. reflexivity.
  - fold (sameIntent oEntry).
    destruct (existsb (sameIntent oEntry) (lookupHistory (self this) (aHistoryEntries w)));
      simpl; [now destruct w|reflexivity].
Qed.

Lemma settle_keeps_histories (i : nat) (r : Response) (w w' : World) :
  settle i r w = Some w' -> aHistoryEntries w' = aHistoryEntries w.
Proof.
  unfold settle. destruct (nth_error (pending w) i) as [t|]; [|discriminate].
  destruct t as [rq|rq c|rq c|d0|this]; destruct r; simpl; try discriminate;
    intros [= <-];
    unfold tryCatch, onControllerCreated, onControllerFailed, onFragmentLoaded,
      callOnBeforeShow, writeFragmentSlot, writeControllerSlot, createDialogFragment,
      callOpen, getHistory,
      bind, readFragments, writeFragments, emit, enqueue, ret, throw,
      setPending, setFragments, setOpenDialogs;
    simpl; try reflexivity;
    destruct (lookup (rqId rq) (_fragments w)) eqn:El; simpl; rewrite ?El; simpl;
    try reflexivity.
  rewrite lookup_assign_same. simpl.
  destruct (rqModel rq); [destruct (truthyFlag (rqUpdate rq))|]; simpl;
    destruct (Nat.eqb c (self (rqThis rq))); simpl;
    rewrite ?lookup_assign_same; simpl;
    try (destruct hook as [|[|]]); reflexivity.
Qed.

Lemma openDialog_keeps_histories (this : BaseController) (sName : string)
      (model : option ModelId) (upd : option bool)
      (cb : option Callback) (data : option Data) (w : World) :
  aHistoryEntries (worldOf (openDialog this sName model upd cb data w))
  = aHistoryEntries w.
Proof.
  rewrite openDialog_unfold.
  destruct (lookup (dialogKey this sName) (_fragments w)) as [e|]; [|reflexivity].
  destruct (fragment e); reflexivity.
Qed.

(** Every array captured by an [addHistoryEntry] closure holds
    pairwise distinct intents, in every world the application reaches. *)
Lemma reachable_intents_distinct (w : World) :
  Reachable w ->
  forall c, NoDup (map intent (lookupHistory c (aHistoryEntries w))).
Proof.
  induction 1 as [o h v|w this sName model upd cb data HR IH|w this HR IH
                  |w this oEntry bReset HR IH|w this t p i r HR IH|w this HR IH
                  |w this m n HR IH|w i r w' HR IH Hs|w o h HR IH]; intros c.
  - constructor.
  - rewrite openDialog_keeps_histories. apply IH.
  - unfold closeFragments.
    rewrite (closing_loop _ w (lookup_in_keys (_fragments w))). apply IH.
  - rewrite addHistoryEntry_unfold. cbv zeta.
    destruct (existsb (sameIntent oEntry) (if bReset then [] else historyOf this w)) eqn:Ex;
      [apply IH|].
    simpl. destruct (Nat.eqb c (self this)) eqn:Ec.
    + apply NoDup_intents_push; [|exact Ex].
      destruct bReset; [constructor|apply IH].
    + destruct bReset; simpl; [rewrite Ec|]; apply IH.
  - apply IH.
  - unfold onNavBack. destruct (previousHash w); apply IH.
  - apply IH.
  - rewrite (settle_keeps_histories _ _ _ _ Hs). apply IH.
  - apply IH.
Qed.

(** C8: in every reachable world each captured history array holds no
    two entries with the same intent.  A call first takes the array as
    empty when [bReset] is true; if an entry of it has the intent of
    [oEntry] the world is left exactly as it was (no push, no service
    call); otherwise [oEntry] is appended, the ShellUIService is
    requested, and when that request resolves the service receives the
    whole array. *)
Theorem addHistoryEntry_keeps_intents_distinct :
  (forall w, Reachable w ->
             forall this, NoDup (map intent (historyOf this w))) /\
  (forall (this : BaseController) (oEntry : HEntry) (bReset : bool) (w : World),
      let before := if bReset then [] else historyOf this w in
      if existsb (fun oHistoryEntry => String.eqb (intent oHistoryEntry) (intent oEntry))
                 before
      then addHistoryEntry this oEntry bReset w = Ok tt w
      else exists w',
          addHistoryEntry this oEntry bReset w = Ok tt w' /\
          historyOf this w' = (before ++ [oEntry])%list /\
          trace w' = (trace w ++ [GetService "ShellUIService"])%list /\
          pending w' = (pending w ++ [AwaitShellService this])%list /\
          (forall other, self other <> self this ->
                         historyOf other w' = historyOf other w) /\
          (forall oService, exists w2,
                settleLast (ServiceResolved oService) w' = Some w2 /\
                trace w2 = (trace w' ++ [SetHierarchy oService (before ++ [oEntry])])%list /\
                historyOf this w2 = (before ++ [oEntry])%list)).
Proof.
  split.
  - intros w HR this. apply reachable_intents_distinct, HR.
  - intros this oEntry bReset w before.
    rewrite addHistoryEntry_unfold. cbv zeta. fold before.
    change (existsb (fun oHistoryEntry => String.eqb (intent oHistoryEntry) (intent oEntry))
                    before) with (existsb (sameIntent oEntry) before).
    destruct (existsb (sameIntent oEntry) before); [reflexivity|].
    eexists. split; [reflexivity|].
    unfold historyOf. simpl. rewrite Nat.eqb_refl.
    split; [reflexivity|]. split; [reflexivity|]. split; [reflexivity|]. split.
    + intros other Hne. apply Nat.eqb_neq in Hne. rewrite Hne.
      destruct bReset; simpl; [now rewrite Hne|reflexivity].
    + intros oService. eexists. split.
      * eapply settleLast_runs; [reflexivity|reflexivity].
      * unfold bind, getHistory, emit, setPending. simpl. rewrite Nat.eqb_refl.
        split; reflexivity.
Qed.

Lemma addHistoryEntry_keeps_intents_distinct_witness :
  NoDup (map intent
             (historyOf homeController
                (worldOf (addHistoryEntry homeController (mkHEntry "Home" "#Shell-home")
                                          false
                   (worldOf (addHistoryEntry homeController (mkHEntry "Start" "#Shell-home")
                                             false initialWorld)))))).
Proof.
  apply (proj1 addHistoryEntry_keeps_intents_distinct).
  apply R_addHistoryEntry, R_addHistoryEntry, R_loaded.
Defined.

(* ================================================================= *)
(** * Further properties of the controller                             *)
(* ================================================================= *)

(** ** [fragmentById] and the names of [openDialog] *)

Lemma nth_error_last_segment (a : list string) :
  a <> [] -> nth_error a (Nat.pred (List.length a)) = Some (last a "").
Proof.
  induction a as [|x a IH]; intros H; [congruence|].
  destruct a as [|y a]; [reflexivity|].
  change (nth_error (y :: a) (Nat.pred (List.length (y :: a))) = Some (last (y :: a) "")).
  apply IH. discriminate.
Qed.

Lemma latest_is_last_segment (s : string) :
  arrayAt (JS.split s ".") (Z.of_nat (List.length (JS.split s ".")) - 1)
  = Some (lastDotSegment s).
Proof.
  unfold arrayAt, lastDotSegment.
  pose proof (split_not_nil s ".") as Hne.
  destruct (JS.split s ".") as [|x a] eqn:E; [congruence|].
  replace (Z.of_nat (List.length (x :: a)) - 1 <? 0) with false
    by (symmetry; apply Z.ltb_ge; simpl List.length; lia).
  replace (Z.to_nat (Z.of_nat (List.length (x :: a)) - 1))
    with (Nat.pred (List.length (x :: a))) by (simpl List.length; lia).
  apply nth_error_last_segment. discriminate.
Qed.

Lemma split_app_sep (x y : string) (c : ascii) :
  JS.split (x ++ String c y) c = (JS.split x c ++ JS.split y c)%list.
Proof.
  induction x as [|a x IH]; simpl.
  - now rewrite Ascii.eqb_refl.
  - destruct (Ascii.eqb a c); [now rewrite IH|].
    rewrite IH. destruct (JS.split x c) as [|h t] eqn:E; [now apply split_not_nil in E|].
    reflexivity.
Qed.

(** The last segment of [x.C] is [C] when [C] has no dot. *)
Lemma lastDotSegment_app (x C : string) :
  JS.indexOf C "." < 0 -> lastDotSegment (x ++ "." ++ C) = C.
Proof.
  intros H. unfold lastDotSegment.
  change (x ++ "." ++ C) with (x ++ String "." C).
  rewrite split_app_sep, (split_no_sep C "." H). apply last_last.
Qed.

Lemma startsWith_view_dot (s : string) :
  JS.startsWith (s ++ ".") "view" = JS.startsWith s "view".
Proof.
  destruct s as [|a [|b [|c [|d s]]]]; simpl;
    rewrite ?andb_false_r; reflexivity.
Qed.

Lemma drop_app_dot (n : nat) (s : string) :
  (n <= String.length s)%nat -> JS.drop n (s ++ ".") = JS.drop n s ++ ".".
Proof.
  revert s. induction n as [|n IH]; intros s H; [reflexivity|].
  destruct s as [|a s]; simpl in *; [lia|]. apply IH. lia.
Qed.

Lemma startsWith_length (s p : string) :
  JS.startsWith s p = true -> (String.length p <= String.length s)%nat.
Proof.
  revert s. induction p as [|a p IH]; intros s H; simpl; [lia|].
  destruct s as [|b s]; simpl in *; [discriminate|].
  apply andb_prop in H. destruct H as [_ H]. apply IH in H. lia.
Qed.

(** Replacing the first ["view"] does not touch a final dot. *)
Lemma replace_view_dot (s : string) :
  JS.replace (s ++ ".") "view" "controller"
  = JS.replace s "view" "controller" ++ ".".
Proof.
  induction s as [|a s IH].
  - reflexivity.
  - change (JS.replace (String a s ++ ".") "view" "controller") with
      (if JS.startsWith (String a s ++ ".") "view"
       then "controller" ++ JS.drop 4 (String a s ++ ".")
       else String a (JS.replace (s ++ ".") "view" "controller")).
    change (JS.replace (String a s) "view" "controller") with
      (if JS.startsWith (String a s) "view"
       then "controller" ++ JS.drop 4 (String a s)
       else String a (JS.replace s "view" "controller")).
    rewrite startsWith_view_dot.
    destruct (JS.startsWith (String a s) "view") eqn:E.
    + rewrite drop_app_dot by (apply startsWith_length in E; exact E).
      now rewrite append_assoc.
    + now rewrite IH.
Qed.

Lemma dialogName_no_dot (this : BaseController) (sName : string) :
  JS.indexOf sName "." <> 0 -> JS.indexOf (dialogName this sName) "." < 0.
Proof.
  intros H. unfold dialogName.
  destruct (Z.ltb_spec 0 (JS.indexOf sName ".")) as [Hpos|Hneg].
  - rewrite splitName_dotted by exact Hpos. simpl.
    rewrite lastDotSegment_no_dot. lia.
  - rewrite splitName_undotted by lia. simpl. lia.
Qed.

Lemma dialogName_as_last_segment (this : BaseController) (sName : string) :
  JS.indexOf sName "." <> 0 -> dialogName this sName = lastDotSegment sName.
Proof.
  intros H. pose proof (dialogKey_as_stated this sName H) as E.
  unfold dialogKey, statedKey in E.
  apply append_inj_l in E. simpl in E. now injection E.
Qed.

(** The module name of the dedicated controller ends in the dialog
    name. *)
Lemma controllerName_last_segment (this : BaseController) (sName : string) :
  JS.indexOf sName "." <> 0 ->
  lastDotSegment (controllerName this sName) = lastDotSegment sName.
Proof.
  intros H. unfold controllerName, dialogViewPath.
  rewrite viewPath_folder, replace_view_dot, append_assoc.
  rewrite lastDotSegment_app by now apply dialogName_no_dot.
  now apply dialogName_as_last_segment.
Qed.

(** X1: [fragmentById(parent, id)] always finds a last segment of the
    class name and asks the core for
    [parent view id - last segment -- id].  When the class is named
    like the fragment (same last segment, first dot of the fragment
    name not in front) that is the registry key of [openDialog]
    followed by [--id]: the id the fragment was loaded under; this is
    in particular so for the module name of the dedicated controller
    that [openDialog] creates. *)
Theorem fragmentById_addresses_fragment
        (sClassName : string) (byId : string -> option ElementId)
        (parent : BaseController) (id : string) :
  fragmentById sClassName byId parent id
  = byId (getId (getView parent) ++ "-" ++ lastDotSegment sClassName ++ "--" ++ id) /\
  (forall n : string,
      JS.indexOf n "." <> 0 ->
      lastDotSegment sClassName = lastDotSegment n ->
      fragmentById sClassName byId parent id
      = byId (dialogKey parent n ++ "--" ++ id)) /\
  (forall n : string,
      JS.indexOf n "." <> 0 ->
      fragmentById (controllerName parent n) byId parent id
      = byId (dialogKey parent n ++ "--" ++ id)).
Proof.
  assert (H1 : forall c, fragmentById c byId parent id
                         = byId (getId (getView parent) ++ "-" ++ lastDotSegment c
                                       ++ "--" ++ id)).
  { intros c. unfold fragmentById. now rewrite latest_is_last_segment. }
  assert (H2 : forall c n, JS.indexOf n "." <> 0 ->
                           lastDotSegment c = lastDotSegment n ->
                           fragmentById c byId parent id
                           = byId (dialogKey parent n ++ "--" ++ id)).
  { intros c n Hn Hc. rewrite H1, Hc, (dialogKey_as_stated parent n Hn).
    unfold statedKey. now rewrite !append_assoc. }
  split; [apply H1|]. split; [apply H2|].
  intros n Hn. apply H2; [exact Hn|now apply controllerName_last_segment].
Qed.

Lemma fragmentById_addresses_fragment_witness :
  fragmentById "com.ts.tsReport.controller.login.fragments.Login"
               (fun s => if String.eqb s "home-Login--ok" then Some 5%nat else None)
               homeController "ok" = Some 5%nat.
Proof.
  destruct (fragmentById_addresses_fragment
              "com.ts.tsReport.controller.login.fragments.Login"
              (fun s => if String.eqb s "home-Login--ok" then Some 5%nat else None)
              homeController "ok") as (_ & H & _).
  rewrite (H "view.login.Login"); [reflexivity|simpl; lia|reflexivity].
Defined.

(** X2: two dotted names with the same last segment are one dialog for
    a view: they have the same registry key, so that after the first
    has been created and loaded, [openDialog] of the second loads
    nothing and opens the dialog of the first. *)
Theorem openDialog_same_last_segment_same_dialog
        (this : BaseController) (n1 n2 : string)
        (model model' : option ModelId) (upd upd' : option bool)
        (cb cb' : option Callback) (data data' : option Data) (w : World)
        (rc : Response) (c : CtrlId) (d : DialogId) (hook : Hook) :
  JS.indexOf n1 "." <> 0 ->
  JS.indexOf n2 "." <> 0 ->
  lastDotSegment n1 = lastDotSegment n2 ->
  lookup (dialogKey this n1) (_fragments w) = None ->
  settlesWith this rc c ->
  dialogKey this n1 = dialogKey this n2 /\
  exists w3,
    openDialogThen this n1 model upd cb data
                   [rc; FragmentClassReady; FragmentResolved d hook] w = Some w3 /\
    openDialog this n2 model' upd' cb' data' w3
    = Ok tt (mkWorld (_fragments w3)
                     (if isOpenIn (openDialogs w3) d then openDialogs w3
                      else openDialogs w3 ++ [d])
                     (previousHash w3) (viewModels w3) (aHistoryEntries w3)
                     (pending w3) (trace w3 ++ [DialogOpen d])).
Proof.
  intros H1 H2 Hseg Hk Hrc.
  assert (Hkey : dialogKey this n1 = dialogKey this n2).
  { rewrite !dialogKey_as_stated by assumption. unfold statedKey. now rewrite Hseg. }
  split; [exact Hkey|].
  eexists. split; [apply creation_run; [exact Hk|exact Hrc]|].
  rewrite openDialog_unfold. cbn [_fragments].
  rewrite <- Hkey, lookup_assign_same. reflexivity.
Qed.

Lemma openDialog_same_last_segment_same_dialog_witness :
  dialogKey homeController "view.login.Login" = dialogKey homeController "view.admin.Login".
Proof.
  apply (openDialog_same_last_segment_same_dialog
           homeController "view.login.Login" "view.admin.Login"
           None None None None None None None None initialWorld
           ControllerRejected 1%nat 7%nat (HookRuns true)).
  - simpl. lia.
  - simpl. lia.
  - reflexivity.
  - reflexivity.
  - right. split; reflexivity.
Defined.

(** X3: a dotted name that already lies in a fragments folder (the
    first occurrence of "fragments" in its lower-cased path is at a
    positive index) is loaded as it is: splitting at the dots, popping
    the last segment and joining again gives the name back. *)
Theorem fragmentName_in_fragments_folder (this : BaseController) (sName : string) :
  0 < JS.indexOf sName "." ->
  0 < JS.indexOf (JS.toLowerCase (withoutLastSegment sName)) "fragments" ->
  fragmentName this sName = sName.
Proof.
  intros Hdot Hfr. rewrite fragmentName_dotted by exact Hdot.
  unfold fragmentsFolder.
  replace (0 <? JS.indexOf (JS.toLowerCase (withoutLastSegment sName)) "fragments")
    with true by (symmetry; now apply Z.ltb_lt).
  symmetry. apply split_at_last_dot. lia.
Qed.

Lemma fragmentName_in_fragments_folder_witness :
  fragmentName homeController "app.view.Fragments.Login" = "app.view.Fragments.Login".
Proof.
  apply fragmentName_in_fragments_folder; reflexivity.
Defined.

(** X4: opened from the view of any target of the manifest, a name
    without a dot at a positive index is loaded from the fragments
    folder beside the views, and its controller is asked for in the
    fragments folder beside the controllers. *)
Theorem manifest_views_fragment_paths
        (t : Target) (this : BaseController) (sName : string) :
  In t manifestTargets ->
  getViewName (getView this) = targetFullViewName t ->
  JS.indexOf sName "." <= 0 ->
  fragmentName this sName = "com.ts.tsReport.view.fragments." ++ sName /\
  controllerName this sName = "com.ts.tsReport.controller.fragments." ++ sName.
Proof.
  intros Ht Hv Hn.
  unfold controllerName, fragmentName, dialogViewPath, dialogName.
  rewrite splitName_undotted by exact Hn. rewrite Hv. cbn [fst snd].
  destruct Ht as [<-|[<-|[]]]; split; reflexivity.
Qed.

Lemma manifest_views_fragment_paths_witness :
  fragmentName homeController "Login" = "com.ts.tsReport.view.fragments.Login" /\
  controllerName homeController "Login" = "com.ts.tsReport.controller.fragments.Login".
Proof.
  apply (manifest_views_fragment_paths (mkTarget "home" "Home" "homeView" 1)
                                       homeController "Login").
  - right. left. reflexivity.
  - reflexivity.
  - simpl. lia.
Defined.

(** ** Calling [openDialog] again *)

Lemma creation_until_required (this : BaseController) (sName : string)
      (model : option ModelId) (upd : option bool)
      (cb : option Callback) (data : option Data) (w : World)
      (rc : Response) (c : CtrlId) :
  lookup (dialogKey this sName) (_fragments w) = None ->
  settlesWith this rc c ->
  openDialogThen this sName model upd cb data [rc] w =
  Some (mkWorld (assign (dialogKey this sName) loadingEntry (_fragments w))
                (openDialogs w) (previousHash w) (viewModels w) (aHistoryEntries w)
                (pending w ++ [AwaitFragmentClass (requestOf this sName model upd cb data) c])
                (trace w ++ [ControllerCreate (controllerName this sName);
                             SapUiRequire "sap/ui/core/Fragment"])).
Proof.
  intros Hk Hrc. unfold openDialogThen.
  rewrite openDialog_unfold, Hk. simpl worldOf. simpl settleAll.
  erewrite controller_settled with (p := pending w) (c := c);
    [|reflexivity|simpl; rewrite lookup_assign_same; discriminate|exact Hrc].
  simpl. unfold loadingEntry. rewrite assign_assign, <- !app_assoc. reflexivity.
Qed.

Lemma load_rejected_run (this : BaseController) (sName : string)
      (model : option ModelId) (upd : option bool)
      (cb : option Callback) (data : option Data) (w : World)
      (rc : Response) (c : CtrlId) :
  lookup (dialogKey this sName) (_fragments w) = None ->
  settlesWith this rc c ->
  openDialogThen this sName model upd cb data
                 [rc; FragmentClassReady; FragmentRejected] w =
  Some (mkWorld (assign (dialogKey this sName) loadingEntry (_fragments w))
                (openDialogs w) (previousHash w) (viewModels w) (aHistoryEntries w)
                (pending w)
                (trace w ++ [ControllerCreate (controllerName this sName);
                             SapUiRequire "sap/ui/core/Fragment";
                             FragmentLoad (dialogKey this sName)
                                          (fragmentName this sName) c])).
Proof.
  intros Hk Hrc.
  pose proof (creation_until_load this sName model upd cb data w rc c Hk Hrc) as H.
  unfold openDialogThen in *. simpl settleAll in *.
  destruct (settleLast rc _) as [w1|]; [|discriminate H].
  destruct (settleLast FragmentClassReady w1) as [w2|]; [|discriminate H].
  injection H as ->.
  erewrite settleLast_runs; [|reflexivity|reflexivity].
  reflexivity.
Qed.

(** X5: while a dialog is being created, calling [openDialog] for its
    key again throws a TypeError and changes nothing: ["open is not a
    function"] on the placeholder until [Controller.create] is
    settled, a read of [undefined] from then until the fragment is
    loaded, and for good when [Fragment.load] is rejected, since no
    reaction is left that could store a fragment. *)
Theorem openDialog_again_before_load_throws
        (this : BaseController) (sName : string)
        (model : option ModelId) (upd : option bool)
        (cb : option Callback) (data : option Data) (w : World) :
  lookup (dialogKey this sName) (_fragments w) = None ->
  let again w' :=
    forall (this2 : BaseController) (n2 : string) (m2 : option ModelId)
           (u2 : option bool) (cb2 : option Callback) (d2 : option Data),
      dialogKey this2 n2 = dialogKey this sName ->
      exists msg, openDialog this2 n2 m2 u2 cb2 d2 w' = Throw (TypeError msg) w' in
  again (worldOf (openDialog this sName model upd cb data w)) /\
  (forall (rc : Response) (c : CtrlId),
      settlesWith this rc c ->
      (exists w1, openDialogThen this sName model upd cb data [rc] w = Some w1 /\
                  again w1) /\
      (exists w2, openDialogThen this sName model upd cb data
                                 [rc; FragmentClassReady] w = Some w2 /\
                  again w2) /\
      (exists w3, openDialogThen this sName model upd cb data
                                 [rc; FragmentClassReady; FragmentRejected] w = Some w3 /\
                  pending w3 = pending w /\
                  again w3)).
Proof.
  intros Hk again.
  assert (Hthrow : forall w' e,
             lookup (dialogKey this sName) (_fragments w') = Some e ->
             fragment e = FragEmptyObject \/ fragment e = FragUndefined ->
             again w').
  { intros w' e He Hf this2 n2 m2 u2 cb2 d2 Hkey.
    rewrite openDialog_unfold, Hkey, He.
    destruct Hf as [-> | ->]; eexists; reflexivity. }
  split.
  - rewrite openDialog_unfold, Hk.
    eapply Hthrow; [simpl; apply lookup_assign_same|now left].
  - intros rc c Hrc. split; [|split].
    + eexists. split; [apply creation_until_required; [exact Hk|exact Hrc]|].
      eapply Hthrow; [simpl; apply lookup_assign_same|now right].
    + eexists. split; [apply creation_until_load; [exact Hk|exact Hrc]|].
      eapply Hthrow; [simpl; apply lookup_assign_same|now right].
    + eexists. split; [apply load_rejected_run; [exact Hk|exact Hrc]|].
      split; [reflexivity|].
      eapply Hthrow; [simpl; apply lookup_assign_same|now right].
Qed.

Lemma openDialog_again_before_load_throws_witness :
  exists msg,
    openDialog homeController "Login" None None None None
               (worldOf (openDialog homeController "view.login.Login"
                                    None None None None initialWorld))
    = Throw (TypeError msg)
            (worldOf (openDialog homeController "view.login.Login"
                                 None None None None initialWorld)).
Proof.
  apply (proj1 (openDialog_again_before_load_throws
                  homeController "view.login.Login" None None None None initialWorld
                  eq_refl)).
  reflexivity.
Defined.

(** ** Opening, closing and opening again *)

Lemma openDialog_loaded (this : BaseController) (sName : string)
      (model : option ModelId) (upd : option bool)
      (cb : option Callback) (data : option Data) (w : World) (d : DialogId) :
  dialogAt (_fragments w) (dialogKey this sName) = Some d ->
  openDialog this sName model upd cb data w
  = Ok tt (mkWorld (_fragments w)
                   (if isOpenIn (openDialogs w) d then openDialogs w
                    else openDialogs w ++ [d])
                   (previousHash w) (viewModels w) (aHistoryEntries w)
                   (pending w) (trace w ++ [DialogOpen d])).
Proof.
  intros Hd. rewrite openDialog_unfold. unfold dialogAt in Hd.
  destruct (lookup (dialogKey this sName) (_fragments w)) as [[[| |d'] c]|];
    try discriminate Hd.
  injection Hd as ->. reflexivity.
Qed.

Lemma isOpenIn_snoc (o : list DialogId) (d x : DialogId) :
  isOpenIn (o ++ [d]) x = isOpenIn o x || Nat.eqb x d.
Proof.
  unfold isOpenIn. rewrite existsb_app. simpl. now rewrite orb_false_r.
Qed.

Lemma isOpenIn_after_open (o : list DialogId) (d : DialogId) :
  isOpenIn (if isOpenIn o d then o else o ++ [d]) d = true.
Proof.
  destruct (isOpenIn o d) eqn:E; [exact E|].
  rewrite isOpenIn_snoc, Nat.eqb_refl. apply orb_true_r.
Qed.

Lemma creations_app (a b : list Event) :
  creations (a ++ b) = (creations a + creations b)%nat.
Proof.
  induction a as [|e a IH]; simpl; [reflexivity|].
  destruct e; simpl; rewrite IH; reflexivity.
Qed.

Lemma dialogAt_in_keys (r : list (string * Entry)) (k : string) (d : DialogId) :
  dialogAt r k = Some d -> In k (map fst r).
Proof.
  unfold dialogAt. destruct (lookup k r) eqn:E; [|discriminate].
  intros _. clear -E. induction r as [|[k' e'] r IH]; simpl in *; [discriminate|].
  destruct (String.eqb_spec k k') as [->|Hne]; [now left|right; now apply IH].
Qed.

Lemma creations_closeCalls (r : list (string * Entry)) (o : list DialogId)
      (ks : list string) :
  creations (closeCalls r o ks) = O.
Proof.
  induction ks as [|k ks IH]; [reflexivity|].
  unfold closeCalls. cbn [flat_map]. fold (closeCalls r o ks).
  rewrite creations_app, IH.
  destruct (dialogAt r k) as [d|]; [|reflexivity].
  destruct (isOpenIn o d); reflexivity.
Qed.

(** X6: a loaded dialog goes through open, close and open again
    without being created anew: [openDialog] calls [open()] on it,
    [closeFragments] (of any controller) then calls [close()] on it,
    and, whatever open state the framework leaves once the closing is
    over, [openDialog] calls [open()] on it again; the registry is the
    same throughout and no further [Controller.create] is made. *)
Theorem dialog_open_close_reopen
        (this other : BaseController) (sName : string)
        (model : option ModelId) (upd : option bool)
        (cb : option Callback) (data : option Data) (w : World) (d : DialogId) :
  dialogAt (_fragments w) (dialogKey this sName) = Some d ->
  exists w1 w2 evs,
    openDialog this sName model upd cb data w = Ok tt w1 /\
    closeFragments other w1 = Ok tt w2 /\
    isOpenIn (openDialogs w1) d = true /\
    trace w1 = (trace w ++ [DialogOpen d])%list /\
    trace w2 = (trace w1 ++ evs)%list /\ In (DialogClose d) evs /\
    forall (o : list DialogId) (h : option string),
      exists w3,
        openDialog this sName model upd cb data
                   (mkWorld (_fragments w2) o h (viewModels w2)
                            (aHistoryEntries w2) (pending w2) (trace w2)) = Ok tt w3 /\
        trace w3 = (trace w2 ++ [DialogOpen d])%list /\
        isOpenIn (openDialogs w3) d = true /\
        _fragments w3 = _fragments w /\
        pending w3 = pending w /\
        creations (trace w3) = creations (trace w).
Proof.
  intros Hd.
  pose proof (openDialog_loaded this sName model upd cb data w d Hd) as H1.
  set (w1 := mkWorld (_fragments w)
                     (if isOpenIn (openDialogs w) d then openDialogs w
                      else openDialogs w ++ [d])
                     (previousHash w) (viewModels w) (aHistoryEntries w)
                     (pending w) (trace w ++ [DialogOpen d])) in *.
  pose proof (closing_loop (map fst (_fragments w1)) w1 (lookup_in_keys (_fragments w1)))
    as Hrun.
  set (evs := closeCalls (_fragments w1) (openDialogs w1) (map fst (_fragments w1))) in *.
  assert (Hopen1 : isOpenIn (openDialogs w1) d = true) by apply isOpenIn_after_open.
  assert (Hclose : In (DialogClose d) evs).
  { apply closeCalls_in. exists (dialogKey this sName), d.
    split; [eapply dialogAt_in_keys; exact Hd|]. now repeat split. }
  assert (Hcre : creations evs = O) by apply creations_closeCalls.
  eexists w1, _, evs.
  split; [exact H1|]. split; [exact Hrun|].
  split; [exact Hopen1|]. split; [reflexivity|]. split; [reflexivity|].
  split; [exact Hclose|].
  intros o h. eexists. split; [apply openDialog_loaded; exact Hd|].
  cbn [trace openDialogs _fragments pending].
  split; [reflexivity|]. split; [apply isOpenIn_after_open|].
  split; [reflexivity|]. split; [reflexivity|].
  subst w1. cbn [trace]. rewrite !creations_app, Hcre. simpl. lia.
Qed.

Lemma dialog_open_close_reopen_witness :
  exists w1 w2,
    openDialog homeController "Login" None None None None
      (mkWorld [("home-Login", mkEntry (FragDialog 7%nat) (CtrlRef 1%nat))]
               [] None [] [] [] []) = Ok tt w1 /\
    closeFragments otherController w1 = Ok tt w2 /\
    trace w2 = [DialogOpen 7%nat; DialogClose 7%nat].
Proof.
  destruct (dialog_open_close_reopen homeController otherController "Login"
              None None None None
              (mkWorld [("home-Login", mkEntry (FragDialog 7%nat) (CtrlRef 1%nat))]
                       [] None [] [] [] []) 7%nat eq_refl)
    as (w1 & w2 & evs & H1 & H2 & _).
  exists w1, w2. split; [exact H1|]. split; [exact H2|].
  vm_compute in H1. injection H1 as <-. vm_compute in H2. injection H2 as <-.
  reflexivity.
Defined.

(** X7: when [onBeforeShow] of the dedicated controller throws or is
    not defined, the fragment stays registered with its controller but
    is not opened: no timer is set.  The next [openDialog] opens it,
    without calling [onBeforeShow] and without setting a model. *)
Theorem openDialog_after_failed_hook
        (this : BaseController) (sName : string)
        (model model' : option ModelId) (upd upd' : option bool)
        (cb cb' : option Callback) (data data' : option Data) (w : World)
        (c : CtrlId) (d : DialogId) (hook : Hook) :
  lookup (dialogKey this sName) (_fragments w) = None ->
  c <> self this ->
  hookReturned hook = false ->
  exists w3,
    openDialogThen this sName model upd cb data
                   [ControllerResolved c; FragmentClassReady; FragmentResolved d hook] w
    = Some w3 /\
    lookup (dialogKey this sName) (_fragments w3)
    = Some (mkEntry (FragDialog d) (CtrlRef c)) /\
    pending w3 = pending w /\
    openDialogs w3 = openDialogs w /\
    (forall ms, ~ In (SetTimeout d ms) (skipn (List.length (trace w)) (trace w3))) /\
    openDialog this sName model' upd' cb' data' w3
    = Ok tt (mkWorld (_fragments w3)
                     (if isOpenIn (openDialogs w) d then openDialogs w
                      else openDialogs w ++ [d])
                     (previousHash w) (viewModels w) (aHistoryEntries w)
                     (pending w) (trace w3 ++ [DialogOpen d])).
Proof.
  intros Hk Hc Hhook. eexists.
  split; [apply creation_run; [exact Hk|now left]|].
  unfold reachesTimer, hookEvents, setModelEvents. cbn [rqThis requestOf rqModel rqUpdate
    rqCallback rqData _fragments pending openDialogs trace].
  apply Nat.eqb_neq in Hc. rewrite Hc, Hhook. cbn [orb].
  split; [apply lookup_assign_same|]. split; [reflexivity|]. split; [reflexivity|].
  split.
  - intros ms. rewrite skipn_app, skipn_all, Nat.sub_diag. cbn [skipn app].
    destruct model as [m|]; [destruct (truthyFlag upd)|]; destruct hook as [|r0]; simpl;
      intros H; repeat (destruct H as [H|H]; try discriminate H); exact H.
  - rewrite openDialog_unfold. cbn [_fragments]. rewrite lookup_assign_same. reflexivity.
Qed.

Lemma openDialog_after_failed_hook_witness :
  exists w3,
    openDialogThen homeController "Login" None None None None
                   [ControllerResolved 9%nat; FragmentClassReady;
                    FragmentResolved 7%nat (HookRuns false)] initialWorld = Some w3 /\
    pending w3 = [] /\ openDialogs w3 = [].
Proof.
  destruct (openDialog_after_failed_hook homeController "Login"
              None None None None None None None None initialWorld 9%nat 7%nat
              (HookRuns false) eq_refl)
    as (w3 & H1 & _ & H3 & H4 & _).
  - simpl. discriminate.
  - reflexivity.
  - exists w3. now repeat split.
Defined.

(** ** [closeFragments] with nothing to close *)

Lemma world_eta (w : World) :
  mkWorld (_fragments w) (openDialogs w) (previousHash w) (viewModels w)
          (aHistoryEntries w) (pending w) (trace w) = w.
Proof. now destruct w. Qed.

Lemma closeCalls_nothing_open (r : list (string * Entry)) (o : list DialogId)
      (ks : list string) :
  (forall k d, In k ks -> dialogAt r k = Some d -> isOpenIn o d = false) ->
  closeCalls r o ks = [].
Proof.
  induction ks as [|k ks IH]; intros H; [reflexivity|].
  unfold closeCalls. cbn [flat_map]. fold (closeCalls r o ks).
  rewrite IH by (intros k0 d Hin; apply H; now right).
  destruct (dialogAt r k) as [d|] eqn:Ed; [|reflexivity].
  now rewrite (H k d (or_introl eq_refl) Ed).
Qed.

(** X8: when no registered dialog reports that it is open (the
    registry is empty, its entries are still without fragment, or
    their dialogs are closed), [closeFragments] makes no call and
    leaves the world exactly as it is. *)
Theorem closeFragments_nothing_open (this : BaseController) (w : World) :
  (forall k d, dialogAt (_fragments w) k = Some d ->
               isOpenIn (openDialogs w) d = false) ->
  closeFragments this w = Ok tt w.
Proof.
  intros H. unfold closeFragments.
  rewrite (closing_loop _ w (lookup_in_keys (_fragments w))).
  rewrite closeCalls_nothing_open by (intros k d _; apply H).
  rewrite app_nil_r. now rewrite world_eta.
Qed.

Lemma closeFragments_nothing_open_witness :
  closeFragments homeController
    (mkWorld [("home-A", placeholderEntry); ("home-B", loadingEntry);
              ("home-C", mkEntry (FragDialog 7%nat) (CtrlRef 1%nat))]
             [8%nat] None [] [] [] [])
  = Ok tt (mkWorld [("home-A", placeholderEntry); ("home-B", loadingEntry);
                    ("home-C", mkEntry (FragDialog 7%nat) (CtrlRef 1%nat))]
                   [8%nat] None [] [] [] []).
Proof.
  apply closeFragments_nothing_open.
  intros k d Hd. unfold dialogAt in Hd. simpl in Hd.
  destruct (String.eqb k "home-A"); [discriminate Hd|].
  destruct (String.eqb k "home-B"); [discriminate Hd|].
  destruct (String.eqb k "home-C"); [|discriminate Hd].
  injection Hd as <-. reflexivity.
Defined.

(** ** [addHistoryEntry] again, and what the service receives *)

Lemma existsb_sameIntent_snoc (oEntry oEntry' : HEntry) (h : list HEntry) :
  intent oEntry' = intent oEntry ->
  existsb (sameIntent oEntry') (h ++ [oEntry]) = true.
Proof.
  intros H. rewrite existsb_app. simpl. unfold sameIntent at 2.
  rewrite H, String.eqb_refl. now rewrite orb_true_r.
Qed.

Lemma existsb_sameIntent_ext (a b : HEntry) (h : list HEntry) :
  intent a = intent b -> existsb (sameIntent a) h = existsb (sameIntent b) h.
Proof.
  intros H. induction h as [|x h IH]; simpl; [reflexivity|].
  unfold sameIntent at 1 3. now rewrite H, IH.
Qed.

(** X9: an entry is added once: after [addHistoryEntry(oEntry, ...)], a
    call without reset for any entry of the same intent changes
    nothing, neither the array nor the pending service requests nor
    the trace. *)
Theorem addHistoryEntry_same_intent_again
        (this : BaseController) (oEntry oEntry' : HEntry) (bReset : bool) (w : World) :
  intent oEntry' = intent oEntry ->
  addHistoryEntry this oEntry' false (worldOf (addHistoryEntry this oEntry bReset w))
  = Ok tt (worldOf (addHistoryEntry this oEntry bReset w)).
Proof.
  intros Hi. rewrite (addHistoryEntry_unfold this oEntry bReset w). cbv zeta.
  destruct (existsb (sameIntent oEntry) (if bReset then [] else historyOf this w)) eqn:Ex.
  - cbn [worldOf]. rewrite addHistoryEntry_unfold. cbv zeta.
    destruct bReset; [discriminate Ex|].
    now rewrite (existsb_sameIntent_ext oEntry' oEntry _ Hi), Ex.
  - cbn [worldOf]. rewrite addHistoryEntry_unfold. cbv zeta.
    unfold historyOf at 1. cbn [aHistoryEntries lookupHistory].
    rewrite Nat.eqb_refl.
    now rewrite (existsb_sameIntent_snoc oEntry oEntry' _ Hi).
Qed.

Lemma addHistoryEntry_same_intent_again_witness :
  historyOf homeController
    (worldOf (addHistoryEntry homeController (mkHEntry "Home again" "#Shell-home") false
       (worldOf (addHistoryEntry homeController (mkHEntry "Home" "#Shell-home") true
                                 initialWorld))))
  = [mkHEntry "Home" "#Shell-home"].
Proof.
  rewrite (addHistoryEntry_same_intent_again homeController
             (mkHEntry "Home" "#Shell-home") (mkHEntry "Home again" "#Shell-home")
             true initialWorld eq_refl).
  reflexivity.
Defined.

Lemma service_resolved (i : nat) (this : BaseController) (oService : ServiceId)
      (w : World) :
  nth_error (pending w) i = Some (AwaitShellService this) ->
  settle i (ServiceResolved oService) w
  = Some (mkWorld (_fragments w) (openDialogs w) (previousHash w) (viewModels w)
                  (aHistoryEntries w) (removeNth i (pending w))
                  (trace w ++ [SetHierarchy oService (historyOf this w)])).
Proof.
  intros H. unfold settle. rewrite H. reflexivity.
Qed.

Lemma nth_error_snoc_task (p : list Task) (t : Task) :
  nth_error (p ++ [t]) (List.length p) = Some t.
Proof.
  rewrite nth_error_app2 by lia. now rewrite Nat.sub_diag.
Qed.

(** X10: the service is handed the array as it is when the service
    request resolves, not as it was when the entry was added: if a
    second entry is added before the request of the first resolves,
    the first [setHierarchy] already carries both; and if the second
    was added with a reset, it carries the second alone. *)
Theorem setHierarchy_receives_current_array
        (this : BaseController) (e1 e2 : HEntry) (bReset1 bReset2 : bool)
        (oService : ServiceId) (w : World) :
  let before := if bReset1 then [] else historyOf this w in
  existsb (sameIntent e1) before = false ->
  intent e2 <> intent e1 ->
  existsb (sameIntent e2) before = false ->
  let w1 := worldOf (addHistoryEntry this e1 bReset1 w) in
  let w2 := worldOf (addHistoryEntry this e2 bReset2 w1) in
  exists w3,
    settle (List.length (pending w)) (ServiceResolved oService) w2 = Some w3 /\
    trace w3
    = (trace w2 ++ [SetHierarchy oService
                                 (if bReset2 then [e2] else before ++ [e1; e2])])%list.
Proof.
  intros before H1 Hne H2 w1 w2.
  assert (E1 : w1 = mkWorld (_fragments w) (openDialogs w) (previousHash w) (viewModels w)
                        ((self this, (before ++ [e1])%list)
                           :: (if bReset1 then (self this, []) :: aHistoryEntries w
                               else aHistoryEntries w))
                        (pending w ++ [AwaitShellService this])
                        (trace w ++ [GetService "ShellUIService"])).
  { subst w1. rewrite addHistoryEntry_unfold. cbv zeta. fold before. now rewrite H1. }
  assert (Hh1 : historyOf this w1 = (before ++ [e1])%list).
  { rewrite E1. unfold historyOf. cbn [aHistoryEntries lookupHistory].
    now rewrite Nat.eqb_refl. }
  assert (Hex2 : existsb (sameIntent e2) (if bReset2 then [] else historyOf this w1) = false).
  { destruct bReset2; [reflexivity|].
    rewrite Hh1, existsb_app, H2. simpl. unfold sameIntent.
    apply not_eq_sym in Hne. apply String.eqb_neq in Hne. now rewrite Hne. }
  assert (E2 : w2 = mkWorld (_fragments w1) (openDialogs w1) (previousHash w1) (viewModels w1)
                        ((self this, ((if bReset2 then [] else historyOf this w1) ++ [e2])%list)
                           :: (if bReset2 then (self this, []) :: aHistoryEntries w1
                               else aHistoryEntries w1))
                        (pending w1 ++ [AwaitShellService this])
                        (trace w1 ++ [GetService "ShellUIService"])).
  { subst w2. rewrite addHistoryEntry_unfold. cbv zeta. now rewrite Hex2. }
  assert (Hp : nth_error (pending w2) (List.length (pending w))
               = Some (AwaitShellService this)).
  { rewrite E2. cbn [pending]. rewrite E1. cbn [pending].
    rewrite nth_error_app1 by (rewrite length_app; simpl; lia).
    apply nth_error_snoc_task. }
  eexists. split; [apply service_resolved; exact Hp|].
  cbn [trace]. f_equal. f_equal. f_equal.
  rewrite E2. unfold historyOf at 1. cbn [aHistoryEntries lookupHistory].
  rewrite Nat.eqb_refl. destruct bReset2; [reflexivity|].
  rewrite Hh1, <- app_assoc. reflexivity.
Qed.

Lemma setHierarchy_receives_current_array_witness :
  exists w3,
    settle 0 (ServiceResolved 4%nat)
           (worldOf (addHistoryEntry homeController (mkHEntry "B" "#b") false
              (worldOf (addHistoryEntry homeController (mkHEntry "A" "#a") false
                                        initialWorld)))) = Some w3 /\
    In (SetHierarchy 4%nat [mkHEntry "A" "#a"; mkHEntry "B" "#b"]) (trace w3).
Proof.
  destruct (setHierarchy_receives_current_array homeController
              (mkHEntry "A" "#a") (mkHEntry "B" "#b") false false 4%nat initialWorld)
    as (w3 & H1 & H2).
  - reflexivity.
  - simpl. discriminate.
  - reflexivity.
  - exists w3. split; [exact H1|]. rewrite H2. apply in_or_app. right. now left.
Defined.

(** ** What one operation can do to the registry *)

Lemma removeNth_split (p : list Task) (i : nat) (t : Task) :
  nth_error p i = Some t ->
  exists p1 p2, p = (p1 ++ t :: p2)%list /\ removeNth i p = (p1 ++ p2)%list.
Proof.
  revert i. induction p as [|x p IH]; intros [|i] H; simpl in H; try discriminate.
  - injection H as ->. now exists [], p.
  - destruct (IH i H) as (p1 & p2 & -> & E). exists (x :: p1), p2.
    simpl. now rewrite E.
Qed.

Lemma taskKeys_app (a b : list Task) :
  taskKeys (a ++ b) = (taskKeys a ++ taskKeys b)%list.
Proof.
  induction a as [|t a IH]; simpl; [reflexivity|].
  destruct (taskKey t); simpl; now rewrite IH.
Qed.

Lemma taskKeys_in (p : list Task) (t : Task) (k : string) :
  In t p -> taskKey t = Some k -> In k (taskKeys p).
Proof.
  induction p as [|x p IH]; simpl; [tauto|].
  intros [->|H] Hk.
  - rewrite Hk. now left.
  - destruct (taskKey x); [right|]; now apply IH.
Qed.

Lemma taskKeys_removed (p : list Task) (i : nat) (t : Task) (k : string) :
  nth_error p i = Some t -> In k (taskKeys (removeNth i p)) -> In k (taskKeys p).
Proof.
  intros H Hin. destruct (removeNth_split p i t H) as (p1 & p2 & -> & E).
  rewrite E, taskKeys_app in Hin. rewrite taskKeys_app. simpl.
  apply in_app_or in Hin. apply in_or_app.
  destruct Hin as [Hin|Hin]; [now left|right].
  destruct (taskKey t); [now right|exact Hin].
Qed.

Lemma taskKeys_removed_distinct (p : list Task) (i : nat) (t : Task) :
  nth_error p i = Some t -> NoDup (taskKeys p) ->
  NoDup (taskKeys (removeNth i p)) /\
  forall k, taskKey t = Some k -> ~ In k (taskKeys (removeNth i p)).
Proof.
  intros H Hnd. destruct (removeNth_split p i t H) as (p1 & p2 & -> & E).
  rewrite E. rewrite taskKeys_app in *. simpl in Hnd.
  destruct (taskKey t) as [k|].
  - split; [now apply NoDup_remove_1 in Hnd|].
    intros k0 [= <-]. now apply NoDup_remove_2 in Hnd.
  - split; [exact Hnd|discriminate].
Qed.

Lemma in_removeNth (p : list Task) (i : nat) (t : Task) :
  In t (removeNth i p) -> In t p.
Proof.
  revert i. induction p as [|x p IH]; intros [|i]; simpl; try tauto.
  intros [->|H]; [now left|right; eapply IH; exact H].
Qed.

Lemma lookup_none_not_in (r : list (string * Entry)) (k : string) :
  lookup k r = None -> ~ In k (map fst r).
Proof.
  intros H Hin. now apply (lookup_in_keys r k Hin).
Qed.

Lemma map_fst_assign_new (k : string) (e : Entry) (r : list (string * Entry)) :
  lookup k r = None -> map fst (assign k e r) = (map fst r ++ [k])%list.
Proof.
  induction r as [|[k0 e0] r IH]; simpl; intros H; [reflexivity|].
  destruct (String.eqb k k0); [discriminate|]. simpl. now rewrite IH.
Qed.

Lemma length_assign (k : string) (e : Entry) (r : list (string * Entry)) :
  List.length (assign k e r)
  = match lookup k r with
    | Some _ => List.length r
    | None => S (List.length r)
    end.
Proof.
  induction r as [|[k0 e0] r IH]; simpl; [reflexivity|].
  destruct (String.eqb k k0); simpl; [reflexivity|].
  rewrite IH. now destruct (lookup k r).
Qed.

Ltac nothing_new :=
  repeat split; try reflexivity; try discriminate; try constructor;
  try (intros; match goal with
               | H : In _ [] |- _ => destruct H
               | H : False |- _ => destruct H
               end).

Ltac inj_upd :=
  match goal with
  | H : Some _ = Some ?e |- entryShape ?e => injection H as <-
  end.

(** What settling a task does to registry, pending tasks and trace, in
    any world: it writes at most the entry of the task's own key, it
    registers at most one follow-up task, for the same key, and it
    asks for no controller. *)
Lemma settle_shape (i : nat) (r : Response) (w w' : World) (t : Task) :
  nth_error (pending w) i = Some t ->
  settle i r w = Some w' ->
  exists (upd : option Entry) (new : list Task) (evs : list Event),
    _fragments w' = match upd, taskKey t with
                    | Some e', Some k => assign k e' (_fragments w)
                    | _, _ => _fragments w
                    end /\
    pending w' = (removeNth i (pending w) ++ new)%list /\
    trace w' = (trace w ++ evs)%list /\
    creations evs = O /\
    aHistoryEntries w' = aHistoryEntries w /\
    (forall e', upd = Some e' ->
                (exists k, taskKey t = Some k /\ lookup k (_fragments w) <> None) /\
                entryShape e') /\
    (forall t', In t' new ->
                taskKey t' = None \/
                (taskKey t' = taskKey t /\ taskEntry t' = loadingEntry /\
                 (upd = Some loadingEntry \/
                  (upd = None /\ taskEntry t = loadingEntry)))) /\
    NoDup (taskKeys new).
Proof.
  intros Ht. unfold settle. rewrite Ht.
  destruct t as [rq|rq c|rq c|d0|this]; destruct r; simpl; try discriminate;
    intros [= <-].
  - (* Controller.create resolved *)
    unfold tryCatch, onControllerCreated, onControllerFailed, writeControllerSlot,
      createDialogFragment, bind, readFragments, writeFragments, emit, enqueue, throw,
      setPending, setFragments.
    simpl. destruct (lookup (rqId rq) (_fragments w)) eqn:El; simpl; rewrite ?El; simpl.
    + exists (Some loadingEntry), [AwaitFragmentClass rq oController],
        [SapUiRequire "sap/ui/core/Fragment"].
      rewrite assign_assign. repeat split; try reflexivity.
      * exists (rqId rq). split; [reflexivity|congruence].
      * inj_upd. right. now left.
      * intros t' [<-|[]]. right. repeat split. now left.
      * simpl. repeat constructor. tauto.
    + exists None, [], []. rewrite !app_nil_r. nothing_new.
  - (* Controller.create rejected *)
    unfold onControllerFailed, writeControllerSlot,
      createDialogFragment, bind, readFragments, writeFragments, emit, enqueue, throw,
      setPending, setFragments.
    simpl. destruct (lookup (rqId rq) (_fragments w)) eqn:El; simpl; rewrite ?El; simpl.
    + exists (Some loadingEntry), [AwaitFragmentClass rq (self (rqThis rq))],
        [SapUiRequire "sap/ui/core/Fragment"].
      rewrite assign_assign. repeat split; try reflexivity.
      * exists (rqId rq). split; [reflexivity|congruence].
      * inj_upd. right. now left.
      * intros t' [<-|[]]. right. repeat split. now left.
      * simpl. repeat constructor. tauto.
    + exists None, [], []. rewrite !app_nil_r. nothing_new.
  - (* the Fragment class is available *)
    exists None, [AwaitFragment rq c], [FragmentLoad (rqId rq) (rqName rq) c].
    repeat split; try reflexivity; try discriminate.
    + intros t' [<-|[]]. right. repeat split. now right.
    + simpl. repeat constructor. tauto.
  - (* Fragment.load resolved *)
    unfold onFragmentLoaded, callOnBeforeShow, writeFragmentSlot, writeControllerSlot,
      bind, readFragments, writeFragments, emit, enqueue, ret, throw,
      setPending, setFragments.
    simpl. destruct (lookup (rqId rq) (_fragments w)) eqn:El; simpl; rewrite ?El; simpl.
    + rewrite lookup_assign_same. simpl. rewrite assign_assign.
      exists (Some (mkEntry (FragDialog oFragment) (CtrlRef c))),
        (if reachesTimer rq c hook then [AwaitTimer oFragment] else []),
        ([AddDependent (getId (getView (rqThis rq))) oFragment]
           ++ setModelEvents rq oFragment ++ hookEvents rq c oFragment hook
           ++ (if reachesTimer rq c hook
               then [SetTimeout oFragment 100] else []))%list.
      unfold setModelEvents, hookEvents, reachesTimer.
      destruct (rqModel rq) as [m0|]; [destruct (truthyFlag (rqUpdate rq))|];
        simpl; destruct (Nat.eqb c (self (rqThis rq))); simpl;
        rewrite ?lookup_assign_same; simpl;
        try (destruct hook as [|[|]]); simpl;
        rewrite <- ?app_assoc, ?app_nil_r; simpl;
        (repeat split; try reflexivity;
         [exists (rqId rq); split; [reflexivity|congruence]
         |inj_upd; right; right; now exists oFragment, c
         |intros t' Hin; repeat (destruct Hin as [Hin|Hin]; subst); try contradiction;
          left; reflexivity
         |repeat constructor]).
    + exists None, [], []. rewrite !app_nil_r. nothing_new.
  - (* Fragment.load rejected *)
    exists None, [], []. unfold ret, setPending. simpl. rewrite !app_nil_r.
    nothing_new.
  - (* the timer fired *)
    exists None, [], [DialogOpen d0]. simpl. rewrite !app_nil_r.
    nothing_new.
  - (* the shell service is available *)
    exists None, [], [SetHierarchy oService (lookupHistory (self this) (aHistoryEntries w))].
    simpl. rewrite !app_nil_r.
    nothing_new.
Qed.

(** ** The invariant of registry, pending reactions and trace *)

Lemma taskKeys_inv (p : list Task) (k : string) :
  In k (taskKeys p) -> exists t, In t p /\ taskKey t = Some k.
Proof.
  induction p as [|x p IH]; simpl; [tauto|].
  destruct (taskKey x) as [k0|] eqn:E.
  - intros [<-|H]; [exists x; split; [now left|exact E]|].
    destruct (IH H) as (t & Hin & Ht). exists t. split; [now right|exact Ht].
  - intros H. destruct (IH H) as (t & Hin & Ht). exists t. split; [now right|exact Ht].
Qed.

Lemma NoDup_app_disjoint (a b : list string) :
  NoDup a -> NoDup b -> (forall x, In x a -> ~ In x b) -> NoDup (a ++ b).
Proof.
  induction a as [|x a IH]; simpl; intros Ha Hb Hd; [exact Hb|].
  inversion Ha as [|? ? Hx Ha']; subst. constructor.
  - intros Hin. apply in_app_or in Hin. destruct Hin as [Hin|Hin]; [tauto|].
    apply (Hd x); [now left|exact Hin].
  - apply IH; [exact Ha'|exact Hb|]. intros y Hy. apply Hd. now right.
Qed.

(** Operations that leave the registry alone, register only tasks
    without a key and ask for no controller keep the invariant. *)
Lemma consistent_frame (w w' : World) (new : list Task) (evs : list Event) :
  Consistent w ->
  _fragments w' = _fragments w ->
  pending w' = (pending w ++ new)%list ->
  taskKeys new = [] ->
  trace w' = (trace w ++ evs)%list ->
  creations evs = O ->
  Consistent w'.
Proof.
  intros [H1 H2 H3 H4 H5] Hf Hp Hn Ht Hc. constructor.
  - now rewrite Hf.
  - rewrite Hf. exact H2.
  - rewrite Hf, Hp. intros t k Hin Hk. apply in_app_or in Hin.
    destruct Hin as [Hin|Hin]; [now apply H3|].
    pose proof (taskKeys_in new t k Hin Hk) as Habs. rewrite Hn in Habs. destruct Habs.
  - now rewrite Hp, taskKeys_app, Hn, app_nil_r.
  - rewrite Ht, Hf, creations_app, Hc. lia.
Qed.

Lemma consistent_same (w w' : World) :
  Consistent w ->
  _fragments w' = _fragments w -> pending w' = pending w -> trace w' = trace w ->
  Consistent w'.
Proof.
  intros HC Hf Hp Ht.
  apply (consistent_frame w w' [] [] HC Hf); rewrite ?app_nil_r; auto.
Qed.

Lemma consistent_openDialog (this : BaseController) (sName : string)
      (model : option ModelId) (upd : option bool)
      (cb : option Callback) (data : option Data) (w : World) :
  Consistent w ->
  Consistent (worldOf (openDialog this sName model upd cb data w)).
Proof.
  intros HC. rewrite openDialog_unfold.
  destruct (lookup (dialogKey this sName) (_fragments w)) as [e|] eqn:Ek.
  - destruct (fragment e) as [| |d]; simpl.
    + exact HC.
    + exact HC.
    + apply (consistent_frame w _ [] [DialogOpen d] HC); rewrite ?app_nil_r; reflexivity.
  - destruct HC as [H1 H2 H3 H4 H5]. cbn [worldOf]. constructor; cbn [_fragments pending trace].
    + rewrite map_fst_assign_new by exact Ek.
      apply NoDup_app_disjoint; [exact H1|repeat constructor; tauto|].
      intros x Hx [<-|[]]. now apply (lookup_none_not_in _ _ Ek).
    + intros k e Hl. destruct (String.eqb_spec k (dialogKey this sName)) as [->|Hne].
      * rewrite lookup_assign_same in Hl. injection Hl as <-. now left.
      * rewrite lookup_assign_other in Hl by exact Hne. eapply H2; exact Hl.
    + intros t k Hin Hk. apply in_app_or in Hin. destruct Hin as [Hin|[<-|[]]].
      * pose proof (H3 t k Hin Hk) as Hreg.
        rewrite lookup_assign_other; [exact Hreg|].
        intros ->. rewrite Ek in Hreg. discriminate Hreg.
      * simpl in Hk. injection Hk as <-. apply lookup_assign_same.
    + rewrite taskKeys_app. simpl.
      apply NoDup_app_disjoint; [exact H4|repeat constructor; tauto|].
      intros x Hx [<-|[]].
      destruct (taskKeys_inv _ _ Hx) as (t & Hin & Hk).
      rewrite (H3 t _ Hin Hk) in Ek. discriminate Ek.
    + rewrite creations_app, length_assign, Ek, H5. simpl. lia.
Qed.

Lemma consistent_settle (i : nat) (r : Response) (w w' : World) :
  Consistent w -> settle i r w = Some w' -> Consistent w'.
Proof.
  intros [H1 H2 H3 H4 H5] Hs.
  destruct (nth_error (pending w) i) as [t|] eqn:Ht;
    [|unfold settle in Hs; rewrite Ht in Hs; discriminate Hs].
  destruct (settle_shape i r w w' t Ht Hs)
    as (upd & new & evs & Hf & Hp & Htr & Hc & _ & Hupd & Hnew & Hnd).
  destruct (taskKeys_removed_distinct _ _ _ Ht H4) as [Hrd Hrk].
  assert (Hold : forall t0 k0, In t0 (removeNth i (pending w)) -> taskKey t0 = Some k0 ->
                               lookup k0 (_fragments w) = Some (taskEntry t0) /\
                               taskKey t <> Some k0).
  { intros t0 k0 Hin Hk. split; [apply H3; [now apply in_removeNth in Hin|exact Hk]|].
    intros Hkt. apply (Hrk k0 Hkt). eapply taskKeys_in; eassumption. }
  assert (Hdist : NoDup (taskKeys (pending w'))).
  { rewrite Hp, taskKeys_app. apply NoDup_app_disjoint; [exact Hrd|exact Hnd|].
    intros x Hx Hx'. destruct (taskKeys_inv _ _ Hx') as (t' & Hin' & Hk').
    destruct (Hnew t' Hin') as [Hn|(Hsame & _)]; [congruence|].
    apply (Hrk x); [congruence|exact Hx]. }
  destruct upd as [e'|].
  - destruct (Hupd e' eq_refl) as ((k & Hk & Hreg) & Hshape).
    rewrite Hk in Hf. constructor.
    + rewrite Hf, map_fst_assign by exact Hreg. exact H1.
    + rewrite Hf. intros k0 e Hl. destruct (String.eqb_spec k0 k) as [->|Hne].
      * rewrite lookup_assign_same in Hl. now injection Hl as <-.
      * rewrite lookup_assign_other in Hl by exact Hne. eapply H2; exact Hl.
    + rewrite Hf, Hp. intros t0 k0 Hin Hk0. apply in_app_or in Hin.
      destruct Hin as [Hin|Hin].
      * destruct (Hold t0 k0 Hin Hk0) as [Hl Hne].
        rewrite lookup_assign_other; [exact Hl|]. intros ->. now apply Hne.
      * destruct (Hnew t0 Hin) as [Hn|(Hsame & He & [Hu|[Hu _]])];
          [congruence| |discriminate Hu].
        injection Hu as ->. rewrite Hsame, Hk in Hk0. injection Hk0 as <-.
        rewrite He. apply lookup_assign_same.
    + exact Hdist.
    + rewrite Htr, Hf, creations_app, Hc, length_assign.
      destruct (lookup k (_fragments w)); [lia|congruence].
  - assert (Hf' : _fragments w' = _fragments w) by (rewrite Hf; now destruct (taskKey t)).
    constructor.
    + now rewrite Hf'.
    + rewrite Hf'. exact H2.
    + rewrite Hf', Hp. intros t0 k0 Hin Hk0. apply in_app_or in Hin.
      destruct Hin as [Hin|Hin]; [now apply (Hold t0 k0)|].
      destruct (Hnew t0 Hin) as [Hn|(Hsame & He & [Hu|[_ Het]])];
        [congruence|discriminate Hu|].
      rewrite He, <- Het. apply H3; [eapply nth_error_In; exact Ht|congruence].
    + exact Hdist.
    + rewrite Htr, Hf', creations_app, Hc. lia.
Qed.

Lemma closeFragments_world (this : BaseController) (w : World) :
  exists evs o,
    worldOf (closeFragments this w)
    = mkWorld (_fragments w) o (previousHash w) (viewModels w)
              (aHistoryEntries w) (pending w) (trace w ++ evs) /\
    creations evs = O.
Proof.
  exists (closeCalls (_fragments w) (openDialogs w) (map fst (_fragments w))),
    (openDialogs w).
  unfold closeFragments.
  rewrite (closing_loop _ w (lookup_in_keys (_fragments w))).
  split; [reflexivity|apply creations_closeCalls].
Qed.

Lemma addHistoryEntry_world (this : BaseController) (oEntry : HEntry)
      (bReset : bool) (w : World) :
  exists new evs,
    _fragments (worldOf (addHistoryEntry this oEntry bReset w)) = _fragments w /\
    pending (worldOf (addHistoryEntry this oEntry bReset w)) = (pending w ++ new)%list /\
    taskKeys new = [] /\
    trace (worldOf (addHistoryEntry this oEntry bReset w)) = (trace w ++ evs)%list /\
    creations evs = O.
Proof.
  rewrite addHistoryEntry_unfold. cbv zeta.
  destruct (existsb _ _).
  - exists [], []. rewrite !app_nil_r. now repeat split.
  - exists [AwaitShellService this], [GetService "ShellUIService"]. now repeat split.
Qed.

(** An operation keeps the invariant. *)
Lemma step_consistent (w w' : World) :
  Consistent w -> Step w w' -> Consistent w'.
Proof.
  intros HC HS. destruct HS.
  - now apply consistent_openDialog.
  - destruct (closeFragments_world this w) as (evs & o & -> & Hc).
    apply (consistent_frame w _ [] evs HC); rewrite ?app_nil_r; auto.
  - destruct (addHistoryEntry_world this oEntry bReset w) as (new & evs & Hf & Hp & Hn & Ht & Hc).
    now apply (consistent_frame w _ new evs HC).
  - apply (consistent_frame w _ [] [RouterNavTo (getRouter this) t p i r] HC);
      rewrite ?app_nil_r; reflexivity.
  - unfold onNavBack. destruct (previousHash w).
    + apply (consistent_frame w _ [] [WindowHistoryBack] HC); rewrite ?app_nil_r; reflexivity.
    + apply (consistent_frame w _ []
               [RouterNavTo (getRouter this) "appHome" (Some []) (Some []) (Some true)] HC);
        rewrite ?app_nil_r; reflexivity.
  - apply (consistent_frame w _ [] [ViewSetModel (getId (getView this)) m n] HC);
      rewrite ?app_nil_r; reflexivity.
  - apply (consistent_same w _ HC); unfold getModel, View_getModel;
      destruct (JS.truthyStr n); reflexivity.
  - now apply (consistent_same w _ HC).
  - eapply consistent_settle; eassumption.
  - now apply (consistent_same w _ HC).
Qed.

Lemma steps_consistent (w w' : World) :
  Consistent w -> Steps w w' -> Consistent w'.
Proof.
  intros HC HS. induction HS as [|w w1 w2 _ IH Hstep]; [exact HC|].
  eapply step_consistent; [apply IH; exact HC|exact Hstep].
Qed.

Lemma reachable_steps (w : World) :
  Reachable w -> exists o h v, Steps (mkWorld [] o h v [] [] []) w.
Proof.
  induction 1 as [o h v|w this sName model upd cb data HR IH|w this HR IH
                  |w this oEntry bReset HR IH|w this t p i r HR IH|w this HR IH
                  |w this m n HR IH|w i r w' HR IH Hs|w o h HR IH].
  - exists o, h, v. apply Steps_refl.
  - destruct IH as (o & h & v & IH). exists o, h, v.
    eapply Steps_step; [exact IH|apply S_openDialog].
  - destruct IH as (o & h & v & IH). exists o, h, v.
    eapply Steps_step; [exact IH|apply S_closeFragments].
  - destruct IH as (o & h & v & IH). exists o, h, v.
    eapply Steps_step; [exact IH|apply S_addHistoryEntry].
  - destruct IH as (o & h & v & IH). exists o, h, v.
    eapply Steps_step; [exact IH|apply S_navTo].
  - destruct IH as (o & h & v & IH). exists o, h, v.
    eapply Steps_step; [exact IH|apply S_onNavBack].
  - destruct IH as (o & h & v & IH). exists o, h, v.
    eapply Steps_step; [exact IH|apply S_setModel].
  - destruct IH as (o & h & v & IH). exists o, h, v.
    eapply Steps_step; [exact IH|eapply S_settle; exact Hs].
  - destruct IH as (o0 & h0 & v & IH). exists o0, h0, v.
    eapply Steps_step; [exact IH|apply S_user].
Qed.

Lemma loaded_consistent (o : list DialogId) (h : option string)
      (v : list (string * option string * ModelId)) :
  Consistent (mkWorld [] o h v [] [] []).
Proof.
  constructor; simpl; try constructor; try discriminate. intros t k [].
Qed.

(** The invariant holds in every world the application reaches. *)
Lemma reachable_invariant (w : World) :
  Reachable w -> Consistent w.
Proof.
  intros HR. destruct (reachable_steps w HR) as (o & h & v & HS).
  eapply steps_consistent; [apply loaded_consistent|exact HS].
Qed.

(** X11: in every world the application reaches, the registry has one
    entry per key; every entry is the placeholder, the entry without
    fragment and controller that [createDialogFragment] writes, or a
    loaded dialog with its controller; every pending reaction of a
    dialog creation finds its key registered, with the placeholder
    while [Controller.create] is pending and the entry without
    fragment afterwards; no key has two pending reactions; and
    [Controller.create] has been called exactly once per entry. *)
Theorem reachable_consistent (w : World) :
  Reachable w ->
  NoDup (map fst (_fragments w)) /\
  (forall k e,
      lookup k (_fragments w) = Some e ->
      e = placeholderEntry \/ e = loadingEntry \/
      exists d c, e = mkEntry (FragDialog d) (CtrlRef c)) /\
  (forall t k,
      In t (pending w) -> taskKey t = Some k ->
      lookup k (_fragments w) = Some (taskEntry t)) /\
  NoDup (taskKeys (pending w)) /\
  creations (trace w) = List.length (_fragments w).
Proof.
  intros HR. destruct (reachable_invariant w HR) as [H1 H2 H3 H4 H5].
  split; [exact H1|]. split; [exact H2|]. split; [exact H3|]. split; [exact H4|exact H5].
Qed.

Lemma reachable_consistent_witness :
  creations (trace (worldOf (openDialog homeController "Login" None None None None
                                        initialWorld)))
  = List.length (_fragments (worldOf (openDialog homeController "Login" None None None None
                                                 initialWorld))).
Proof.
  apply (reachable_consistent _ (R_openDialog _ homeController "Login"
           None None None None (R_loaded [] None []))).
Defined.

(** X12: in a reachable world [openDialog] has exactly three outcomes,
    decided by the registry entry of its key: no entry, and the
    creation starts; a loaded dialog, and [open()] is called on it; an
    entry still without fragment, and the call throws a TypeError and
    changes nothing. *)
Theorem openDialog_outcomes
        (this : BaseController) (sName : string)
        (model : option ModelId) (upd : option bool)
        (cb : option Callback) (data : option Data) (w : World) :
  Reachable w ->
  (lookup (dialogKey this sName) (_fragments w) = None /\
   exists w1, openDialog this sName model upd cb data w = Ok tt w1 /\
              lookup (dialogKey this sName) (_fragments w1) = Some placeholderEntry /\
              trace w1 = (trace w ++ [ControllerCreate (controllerName this sName)])%list) \/
  (exists d c,
      lookup (dialogKey this sName) (_fragments w)
      = Some (mkEntry (FragDialog d) (CtrlRef c)) /\
      exists w1, openDialog this sName model upd cb data w = Ok tt w1 /\
                 _fragments w1 = _fragments w /\ pending w1 = pending w /\
                 trace w1 = (trace w ++ [DialogOpen d])%list) \/
  ((lookup (dialogKey this sName) (_fragments w) = Some placeholderEntry \/
    lookup (dialogKey this sName) (_fragments w) = Some loadingEntry) /\
   exists msg, openDialog this sName model upd cb data w = Throw (TypeError msg) w).
Proof.
  intros HR. apply reachable_invariant in HR.
  rewrite openDialog_unfold.
  destruct (lookup (dialogKey this sName) (_fragments w)) as [e|] eqn:Ek.
  - destruct (entries_shaped _ HR _ _ Ek) as [->|[->|(d & c & ->)]].
    + right. right. split; [now left|]. eexists. reflexivity.
    + right. right. split; [now right|]. eexists. reflexivity.
    + right. left. exists d, c. split; [reflexivity|].
      eexists. split; [reflexivity|]. now repeat split.
  - left. split; [reflexivity|]. eexists. split; [reflexivity|].
    cbn [_fragments trace]. split; [apply lookup_assign_same|reflexivity].
Qed.

Lemma openDialog_outcomes_witness :
  exists w1,
    openDialog homeController "Login" None None None None initialWorld = Ok tt w1 /\
    lookup "home-Login" (_fragments w1) = Some placeholderEntry.
Proof.
  destruct (openDialog_outcomes homeController "Login" None None None None initialWorld
              (R_loaded [] None []))
    as [(_ & w1 & H1 & H2 & _)|[(d & c & H & _)|([H|H] & _)]];
    try discriminate H.
  exists w1. split; [exact H1|exact H2].
Defined.

(** ** Entries that no pending reaction works on *)

Lemma frozen_frame (w w' : World) (new : list Task) (k : string) (e : Entry) :
  _fragments w' = _fragments w ->
  pending w' = (pending w ++ new)%list ->
  taskKeys new = [] ->
  lookup k (_fragments w) = Some e ->
  ~ In k (taskKeys (pending w)) ->
  lookup k (_fragments w') = Some e /\ ~ In k (taskKeys (pending w')).
Proof.
  intros Hf Hp Hn Hl Hk. rewrite Hf, Hp, taskKeys_app, Hn, app_nil_r. now split.
Qed.

(** An entry whose key no pending reaction works on is left alone by
    every operation, and no operation registers a reaction for it. *)
Lemma step_frozen (w w' : World) (k : string) (e : Entry) :
  Step w w' ->
  lookup k (_fragments w) = Some e ->
  ~ In k (taskKeys (pending w)) ->
  lookup k (_fragments w') = Some e /\ ~ In k (taskKeys (pending w')).
Proof.
  intros HS Hl Hk. destruct HS.
  - rewrite openDialog_unfold.
    destruct (lookup (dialogKey this sName) (_fragments w)) as [e2|] eqn:E2.
    + destruct (fragment e2); simpl; now split.
    + cbn [worldOf _fragments pending].
      assert (Hne : k <> dialogKey this sName) by (intros ->; congruence).
      rewrite lookup_assign_other by exact Hne. split; [exact Hl|].
      rewrite taskKeys_app. simpl. intros Hin. apply in_app_or in Hin.
      destruct Hin as [Hin|[Hin|[]]]; [tauto|]. now apply Hne.
  - destruct (closeFragments_world this w) as (evs & o & -> & _).
    apply (frozen_frame w _ []); rewrite ?app_nil_r; auto.
  - destruct (addHistoryEntry_world this oEntry bReset w) as (new & evs & Hf & Hp & Hn & _).
    now apply (frozen_frame w _ new).
  - apply (frozen_frame w _ []); rewrite ?app_nil_r; auto.
  - unfold onNavBack. destruct (previousHash w);
      apply (frozen_frame w _ []); rewrite ?app_nil_r; auto.
  - apply (frozen_frame w _ []); rewrite ?app_nil_r; auto.
  - unfold getModel, View_getModel. destruct (JS.truthyStr n);
      apply (frozen_frame w _ []); rewrite ?app_nil_r; auto.
  - apply (frozen_frame w _ []); rewrite ?app_nil_r; auto.
  - rename H into Hs.
    destruct (nth_error (pending w) i) as [t|] eqn:Ht;
      [|unfold settle in Hs; rewrite Ht in Hs; discriminate Hs].
    destruct (settle_shape i r w w' t Ht Hs)
      as (upd & new & evs & Hf & Hp & _ & _ & _ & _ & Hnew & _).
    assert (Hkt : taskKey t <> Some k).
    { intros Hkt. apply Hk. eapply taskKeys_in; [eapply nth_error_In; exact Ht|exact Hkt]. }
    split.
    + rewrite Hf. destruct upd as [e'|]; [|exact Hl].
      destruct (taskKey t) as [k0|]; [|exact Hl].
      rewrite lookup_assign_other; [exact Hl|congruence].
    + rewrite Hp, taskKeys_app. intros Hin. apply in_app_or in Hin.
      destruct Hin as [Hin|Hin].
      * apply Hk. eapply taskKeys_removed; eassumption.
      * destruct (taskKeys_inv _ _ Hin) as (t' & Hin' & Hk').
        destruct (Hnew t' Hin') as [Hn|(Hsame & _)]; congruence.
  - apply (frozen_frame w _ []); rewrite ?app_nil_r; auto.
Qed.

Lemma steps_frozen (w w' : World) (k : string) (e : Entry) :
  Steps w w' ->
  lookup k (_fragments w) = Some e ->
  ~ In k (taskKeys (pending w)) ->
  lookup k (_fragments w') = Some e /\ ~ In k (taskKeys (pending w')).
Proof.
  intros HS Hl Hk. induction HS as [|w w1 w2 _ IH Hstep]; [now split|].
  destruct (IH Hl Hk) as [Hl1 Hk1]. eapply step_frozen; eassumption.
Qed.

Lemma step_keeps_keys (w w' : World) (k : string) :
  Step w w' ->
  lookup k (_fragments w) <> None -> lookup k (_fragments w') <> None.
Proof.
  intros HS Hl. destruct HS; try exact Hl.
  - rewrite openDialog_unfold.
    destruct (lookup (dialogKey this sName) (_fragments w)) as [e2|] eqn:E2.
    + destruct (fragment e2); exact Hl.
    + cbn [worldOf _fragments]. now apply lookup_assign_some.
  - destruct (closeFragments_world this w) as (evs & o & -> & _). exact Hl.
  - destruct (addHistoryEntry_world this oEntry bReset w) as (new & evs & -> & _). exact Hl.
  - unfold onNavBack. destruct (previousHash w); exact Hl.
  - unfold getModel, View_getModel. destruct (JS.truthyStr n); exact Hl.
  - rename H into Hs.
    destruct (nth_error (pending w) i) as [t|] eqn:Ht;
      [|unfold settle in Hs; rewrite Ht in Hs; discriminate Hs].
    destruct (settle_shape i r w w' t Ht Hs) as (upd & new & evs & -> & _).
    destruct upd as [e'|]; [|exact Hl].
    destruct (taskKey t) as [k0|]; [|exact Hl].
    now apply lookup_assign_some.
Qed.

(** X13: the registry only grows: a key that is registered stays
    registered through any number of operations; nothing ever deletes
    an entry. *)
Theorem registered_keys_stay (w w' : World) (k : string) :
  Steps w w' ->
  lookup k (_fragments w) <> None ->
  lookup k (_fragments w') <> None.
Proof.
  intros HS Hl. induction HS as [|w w1 w2 _ IH Hstep]; [exact Hl|].
  eapply step_keeps_keys; [exact Hstep|now apply IH].
Qed.

Lemma registered_keys_stay_witness :
  lookup "home-Login"
         (_fragments (worldOf (closeFragments otherController
            (worldOf (openDialog homeController "Login" None None None None
                                 initialWorld))))) <> None.
Proof.
  apply (registered_keys_stay
           (worldOf (openDialog homeController "Login" None None None None initialWorld))).
  - eapply Steps_step; [apply Steps_refl|apply S_closeFragments].
  - simpl. discriminate.
Defined.

(** X14: a rejected [Fragment.load] is never retried.  After it, the
    key keeps the entry without fragment through any number of
    operations, and every [openDialog] for that key, by whichever
    controller, throws a TypeError and changes nothing. *)
Theorem rejected_load_is_final
        (this : BaseController) (sName : string)
        (model : option ModelId) (upd : option bool)
        (cb : option Callback) (data : option Data) (w : World)
        (rc : Response) (c : CtrlId) :
  Reachable w ->
  lookup (dialogKey this sName) (_fragments w) = None ->
  settlesWith this rc c ->
  exists w3,
    openDialogThen this sName model upd cb data
                   [rc; FragmentClassReady; FragmentRejected] w = Some w3 /\
    forall w',
      Steps w3 w' ->
      lookup (dialogKey this sName) (_fragments w') = Some loadingEntry /\
      forall (this2 : BaseController) (n2 : string) (m2 : option ModelId)
             (u2 : option bool) (cb2 : option Callback) (d2 : option Data),
        dialogKey this2 n2 = dialogKey this sName ->
        exists msg, openDialog this2 n2 m2 u2 cb2 d2 w' = Throw (TypeError msg) w'.
Proof.
  intros HR Hk Hrc. eexists.
  split; [apply load_rejected_run; [exact Hk|exact Hrc]|].
  intros w' HS.
  assert (Hfree : ~ In (dialogKey this sName) (taskKeys (pending w))).
  { intros Hin. destruct (taskKeys_inv _ _ Hin) as (t & Ht & Hkt).
    rewrite (tasks_registered _ (reachable_invariant w HR) t _ Ht Hkt) in Hk.
    discriminate Hk. }
  destruct (steps_frozen _ w' (dialogKey this sName) loadingEntry HS) as [Hl _].
  - cbn [_fragments]. apply lookup_assign_same.
  - exact Hfree.
  - split; [exact Hl|].
    intros this2 n2 m2 u2 cb2 d2 Hkey.
    rewrite openDialog_unfold, Hkey, Hl. eexists. reflexivity.
Qed.

Lemma rejected_load_is_final_witness :
  exists w3,
    openDialogThen homeController "Login" None None None None
                   [ControllerRejected; FragmentClassReady; FragmentRejected]
                   initialWorld = Some w3 /\
    exists msg,
      openDialog homeController "Login" None None None None
                 (worldOf (closeFragments homeController w3))
      = Throw (TypeError msg) (worldOf (closeFragments homeController w3)).
Proof.
  destruct (rejected_load_is_final homeController "Login" None None None None
              initialWorld ControllerRejected 1%nat (R_loaded [] None []) eq_refl)
    as (w3 & H1 & H2).
  - right. split; reflexivity.
  - exists w3. split; [exact H1|].
    apply (H2 (worldOf (closeFragments homeController w3))).
    + eapply Steps_step; [apply Steps_refl|apply S_closeFragments].
    + reflexivity.
Defined.

(** X15: a loaded fragment is never loaded again or replaced: in a
    reachable world, an entry that holds a dialog and its controller
    is the same after any number of operations, so that [getFragment]
    keeps returning it and [openDialog] keeps opening that dialog. *)
Theorem loaded_entry_is_final
        (w w' : World) (k : string) (d : DialogId) (c : CtrlId) :
  Reachable w ->
  lookup k (_fragments w) = Some (mkEntry (FragDialog d) (CtrlRef c)) ->
  Steps w w' ->
  lookup k (_fragments w') = Some (mkEntry (FragDialog d) (CtrlRef c)) /\
  forall (this : BaseController) (s : string),
    getId (getView this) ++ "-" ++ s = k ->
    getFragment this s w' = Ok (Some (mkEntry (FragDialog d) (CtrlRef c))) w'.
Proof.
  intros HR Hl HS.
  assert (Hfree : ~ In k (taskKeys (pending w))).
  { intros Hin. destruct (taskKeys_inv _ _ Hin) as (t & Ht & Hkt).
    rewrite (tasks_registered _ (reachable_invariant w HR) t _ Ht Hkt) in Hl.
    destruct t; discriminate Hl. }
  destruct (steps_frozen w w' k _ HS Hl Hfree) as [Hl' _].
  split; [exact Hl'|].
  intros this s <-. unfold getFragment, readFragments. now rewrite Hl'.
Qed.

Lemma loaded_entry_is_final_witness :
  exists w3,
    openDialogThen homeController "Login" None None None None
                   [ControllerRejected; FragmentClassReady; FragmentResolved 7%nat (HookRuns true)]
                   initialWorld = Some w3 /\
    getFragment homeController "Login"
                (worldOf (openDialog otherController "Other" None None None None w3))
    = Ok (Some (mkEntry (FragDialog 7%nat) (CtrlRef 1%nat)))
         (worldOf (openDialog otherController "Other" None None None None w3)).
Proof.
  destruct (openDialogThen homeController "Login" None None None None
              [ControllerRejected; FragmentClassReady; FragmentResolved 7%nat (HookRuns true)]
              initialWorld) as [w3|] eqn:E; [|vm_compute in E; discriminate E].
  exists w3. split; [reflexivity|].
  apply (proj2 (loaded_entry_is_final w3
                  (worldOf (openDialog otherController "Other" None None None None w3))
                  "home-Login" 7%nat 1%nat
                  (openDialogThen_reachable _ _ _ _ _ _ _ _ _ (R_loaded [] None []) E)
                  ltac:(vm_compute in E; injection E as <-; reflexivity)
                  ltac:(eapply Steps_step; [apply Steps_refl|apply S_openDialog]))).
  reflexivity.
Defined.

(** X16: a controller's history array is changed by nothing but a call
    of [addHistoryEntry] on a controller of the same identity: every
    other operation, the settling of tasks included, leaves it as it
    is. *)
Theorem history_changed_only_by_addHistoryEntry
        (w w' : World) (this : BaseController) :
  Step w w' ->
  historyOf this w' = historyOf this w \/
  exists (that : BaseController) (oEntry : HEntry) (bReset : bool),
    self that = self this /\
    w' = worldOf (addHistoryEntry that oEntry bReset w).
Proof.
  intros HS. destruct HS.
  - left. unfold historyOf. now rewrite openDialog_keeps_histories.
  - left. destruct (closeFragments_world this0 w) as (evs & o & -> & _). reflexivity.
  - destruct (Nat.eqb_spec (self this0) (self this)) as [E|Hne].
    + right. now exists this0, oEntry, bReset.
    + left. rewrite addHistoryEntry_unfold. cbv zeta.
      destruct (existsb _ _); [reflexivity|].
      unfold historyOf. cbn [worldOf aHistoryEntries lookupHistory].
      apply not_eq_sym in Hne. apply Nat.eqb_neq in Hne. rewrite Hne.
      destruct bReset; [|reflexivity].
      cbn [lookupHistory]. now rewrite Hne.
  - now left.
  - left. unfold onNavBack. now destruct (previousHash w).
  - now left.
  - left. unfold getModel, View_getModel. now destruct (JS.truthyStr n).
  - now left.
  - left. unfold historyOf. now rewrite (settle_keeps_histories _ _ _ _ H).
  - now left.
Qed.

Lemma history_changed_only_by_addHistoryEntry_witness :
  historyOf homeController
            (worldOf (addHistoryEntry otherController (mkHEntry "A" "#a") false initialWorld))
  = historyOf homeController initialWorld.
Proof.
  destruct (history_changed_only_by_addHistoryEntry initialWorld
              (worldOf (addHistoryEntry otherController (mkHEntry "A" "#a") false
                                        initialWorld))
              homeController (S_addHistoryEntry _ _ _ _)) as [H|(that & e & b & _ & _)].
  - exact H.
  - reflexivity.
Defined.

(** ** Every dialog the controller opens can be closed *)

Lemma in_removeNth_app (p new : list Task) (i : nat) (t : Task) :
  In t (removeNth i p ++ new) -> In t p \/ In t new.
Proof.
  intros H. apply in_app_or in H. destruct H as [H|H]; [left|now right].
  eapply in_removeNth; exact H.
Qed.

(** Settling a task sets a timer only for the fragment it has just
    stored, and calls [open()] only when a timer fires. *)
Lemma settle_opens (i : nat) (r : Response) (w w' : World) :
  settle i r w = Some w' ->
  forall d,
    (In (AwaitTimer d) (pending w') ->
     In (AwaitTimer d) (pending w) \/ registeredDialog d w') /\
    (In (DialogOpen d) (trace w') ->
     In (DialogOpen d) (trace w) \/ In (AwaitTimer d) (pending w)).
Proof.
  unfold settle. destruct (nth_error (pending w) i) as [t|] eqn:Ht; [|discriminate].
  assert (Hrem : forall t' new, In t' (removeNth i (pending w) ++ new) ->
                                In t' (pending w) \/ In t' new)
    by (intros t' new; apply in_removeNth_app).
  assert (Hrem0 : forall t', In t' (removeNth i (pending w)) -> In t' (pending w))
    by (intros t'; apply in_removeNth).
  assert (Htr : forall d ev, ev <> DialogOpen d -> In (DialogOpen d) (trace w ++ [ev]) ->
                             In (DialogOpen d) (trace w)).
  { intros d ev Hne Hin. apply in_app_or in Hin. destruct Hin as [Hin|[Hin|[]]]; congruence. }
  destruct t as [rq|rq c|rq c|d0|this]; destruct r; simpl; try discriminate;
    intros [= <-] d.
  - (* Controller.create resolved *)
    unfold tryCatch, onControllerCreated, onControllerFailed, writeControllerSlot,
      createDialogFragment, bind, readFragments, writeFragments, emit, enqueue, throw,
      setPending, setFragments.
    simpl. destruct (lookup (rqId rq) (_fragments w)) eqn:El; simpl; rewrite ?El; simpl.
    + split.
      * intros Hin. destruct (Hrem _ _ Hin) as [H|[H|[]]]; [now left|discriminate H].
      * intros Hin. left. eapply Htr; [|exact Hin]. discriminate.
    + split; intros Hin; left; auto.
  - (* Controller.create rejected *)
    unfold onControllerFailed, writeControllerSlot,
      createDialogFragment, bind, readFragments, writeFragments, emit, enqueue, throw,
      setPending, setFragments.
    simpl. destruct (lookup (rqId rq) (_fragments w)) eqn:El; simpl; rewrite ?El; simpl.
    + split.
      * intros Hin. destruct (Hrem _ _ Hin) as [H|[H|[]]]; [now left|discriminate H].
      * intros Hin. left. eapply Htr; [|exact Hin]. discriminate.
    + split; intros Hin; left; auto.
  - (* the Fragment class is available *)
    split.
    + intros Hin. destruct (Hrem _ _ Hin) as [H|[H|[]]]; [now left|discriminate H].
    + intros Hin. left. eapply Htr; [|exact Hin]. discriminate.
  - (* Fragment.load resolved *)
    unfold onFragmentLoaded, callOnBeforeShow, writeFragmentSlot, writeControllerSlot,
      bind, readFragments, writeFragments, emit, enqueue, ret, throw,
      setPending, setFragments.
    simpl. destruct (lookup (rqId rq) (_fragments w)) eqn:El; simpl; rewrite ?El; simpl.
    + rewrite lookup_assign_same. simpl. rewrite assign_assign.
      assert (Hreg : forall o h v a p tr,
                 registeredDialog oFragment
                   (mkWorld (assign (rqId rq) (mkEntry (FragDialog oFragment) (CtrlRef c))
                                    (_fragments w)) o h v a p tr)).
      { intros. exists (rqId rq), c. apply lookup_assign_same. }
      destruct (rqModel rq) as [m0|]; [destruct (truthyFlag (rqUpdate rq))|];
        simpl; destruct (Nat.eqb c (self (rqThis rq))); simpl;
        rewrite ?lookup_assign_same; simpl;
        try (destruct hook as [|[|]]); simpl;
        (split;
         [intros Hin;
          first [ destruct (Hrem _ _ Hin) as [H|[H|[]]];
                  [now left|injection H as <-; right; apply Hreg]
                | left; now apply Hrem0 ]
         |intros Hin; left;
          repeat (apply in_app_or in Hin; destruct Hin as [Hin|Hin];
                  [|destruct Hin as [Hin|[]]; discriminate Hin]);
          exact Hin]).
    + split; intros Hin; left; auto.
  - (* Fragment.load rejected *)
    unfold ret, setPending. simpl. split; intros Hin; left; auto.
  - (* the timer fired *)
    split.
    + intros Hin. left. now apply Hrem0.
    + intros Hin. apply in_app_or in Hin. destruct Hin as [Hin|[Hin|[]]]; [now left|].
      injection Hin as <-. right. eapply nth_error_In; exact Ht.
  - (* the shell service is available *)
    split.
    + intros Hin. left. now apply Hrem0.
    + intros Hin. left. eapply Htr; [|exact Hin]. discriminate.
Qed.

Lemma step_keeps_loaded (w w' : World) (d : DialogId) :
  Consistent w -> Step w w' -> registeredDialog d w -> registeredDialog d w'.
Proof.
  intros HC HS (k & c & Hl).
  assert (Hfree : ~ In k (taskKeys (pending w))).
  { intros Hin. destruct (taskKeys_inv _ _ Hin) as (t & Ht & Hkt).
    rewrite (tasks_registered _ HC t _ Ht Hkt) in Hl. destruct t; discriminate Hl. }
  destruct (step_frozen w w' k _ HS Hl Hfree) as [Hl' _].
  now exists k, c.
Qed.

Lemma step_opened_registered (w w' : World) :
  Consistent w ->
  (forall d, openedByController d w -> registeredDialog d w) ->
  Step w w' ->
  forall d, openedByController d w' -> registeredDialog d w'.
Proof.
  intros HC HI HS d Hop.
  assert (Hold : openedByController d w -> registeredDialog d w').
  { intros H. eapply step_keeps_loaded; [exact HC|exact HS|now apply HI]. }
  assert (Hsame : pending w' = pending w -> trace w' = trace w -> registeredDialog d w').
  { intros Hp Ht. apply Hold. unfold openedByController in *. now rewrite <- Hp, <- Ht. }
  assert (Hev : forall ev, ev <> DialogOpen d ->
                           pending w' = pending w -> trace w' = (trace w ++ [ev])%list ->
                           registeredDialog d w').
  { intros ev Hne Hp Ht. apply Hold. unfold openedByController in *.
    rewrite Hp, Ht in Hop. destruct Hop as [H|H]; [now left|right].
    apply in_app_or in H. destruct H as [H|[H|[]]]; congruence. }
  destruct HS.
  - revert Hop Hold Hsame Hev. rewrite openDialog_unfold.
    destruct (lookup (dialogKey this sName) (_fragments w)) as [e|] eqn:Ek.
    + destruct (entries_shaped _ HC _ _ Ek) as [->|[->|(d0 & c0 & ->)]]; simpl;
        intros Hop Hold Hsame Hev; try (now apply Hsame).
      destruct (Nat.eqb_spec d0 d) as [->|Hne].
      * exists (dialogKey this sName), c0. exact Ek.
      * apply (Hev (DialogOpen d0)); [congruence|reflexivity|reflexivity].
    + cbn [worldOf]. intros Hop Hold Hsame Hev. apply Hold.
      unfold openedByController in *. cbn [pending trace] in Hop.
      destruct Hop as [H|H]; apply in_app_or in H;
        destruct H as [H|[H|[]]]; try discriminate H; [now left|now right].
  - revert Hop Hold. unfold closeFragments.
    rewrite (closing_loop _ w (lookup_in_keys (_fragments w))). cbn [worldOf].
    intros Hop Hold. apply Hold. unfold openedByController in *. cbn [pending trace] in Hop.
    destruct Hop as [H|H]; [now left|right].
    apply in_app_or in H. destruct H as [H|H]; [exact H|].
    apply closeCalls_in in H. destruct H as (k & d1 & _ & _ & _ & H). discriminate H.
  - revert Hop Hold Hsame. rewrite addHistoryEntry_unfold. cbv zeta.
    destruct (existsb _ _); cbn [worldOf]; intros Hop Hold Hsame; [now apply Hsame|].
    apply Hold. unfold openedByController in *. cbn [pending trace] in Hop.
    destruct Hop as [H|H]; apply in_app_or in H;
      destruct H as [H|[H|[]]]; try discriminate H; [now left|now right].
  - apply (Hev (RouterNavTo (getRouter this) t p i r)); [discriminate|reflexivity|reflexivity].
  - revert Hop Hold Hsame Hev. unfold onNavBack. destruct (previousHash w);
      intros Hop Hold Hsame Hev.
    + apply (Hev WindowHistoryBack); [discriminate|reflexivity|reflexivity].
    + apply (Hev (RouterNavTo (getRouter this) "appHome" (Some []) (Some []) (Some true)));
        [discriminate|reflexivity|reflexivity].
  - apply (Hev (ViewSetModel (getId (getView this)) m n));
      [discriminate|reflexivity|reflexivity].
  - apply Hsame; unfold getModel, View_getModel; destruct (JS.truthyStr n); reflexivity.
  - now apply Hsame.
  - destruct (settle_opens i r w w' H d) as [Ht Ho].
    destruct Hop as [Hop|Hop].
    + destruct (Ht Hop) as [Hin|Hreg]; [apply Hold; now left|exact Hreg].
    + destruct (Ho Hop) as [Hin|Hin]; apply Hold; [now right|now left].
  - now apply Hsame.
Qed.

Lemma steps_opened_registered (w w' : World) :
  Steps w w' ->
  Consistent w /\ (forall d, openedByController d w -> registeredDialog d w) ->
  Consistent w' /\ (forall d, openedByController d w' -> registeredDialog d w').
Proof.
  intros HS HP. induction HS as [|w w1 w2 _ IH Hstep]; [exact HP|].
  destruct (IH HP) as [HC HI]. split.
  - eapply step_consistent; eassumption.
  - eapply step_opened_registered; eassumption.
Qed.

Lemma reachable_opened_registered (w : World) :
  Reachable w -> forall d, openedByController d w -> registeredDialog d w.
Proof.
  intros HR. destruct (reachable_steps w HR) as (o & h & v & HS).
  apply (steps_opened_registered _ _ HS). split; [apply loaded_consistent|].
  intros d [[]|[]].
Qed.

(** X17: every dialog on which the controller has called [open()], or
    for which it has set the opening timer, is the loaded fragment of
    a registry entry; so whenever such a dialog reports that it is
    open, [closeFragments], on whichever controller, calls [close()]
    on it. *)
Theorem opened_dialogs_are_registered
        (this : BaseController) (w : World) (d : DialogId) :
  Reachable w ->
  In (AwaitTimer d) (pending w) \/ In (DialogOpen d) (trace w) ->
  (exists k c, lookup k (_fragments w) = Some (mkEntry (FragDialog d) (CtrlRef c))) /\
  (isOpenIn (openDialogs w) d = true ->
   exists w' evs, closeFragments this w = Ok tt w' /\
                  trace w' = (trace w ++ evs)%list /\
                  In (DialogClose d) evs).
Proof.
  intros HR Hop.
  destruct (reachable_opened_registered w HR d Hop) as (k & c & Hl).
  split; [now exists k, c|].
  intros Hopen. eexists. eexists.
  split; [apply closing_loop, lookup_in_keys|]. split; [reflexivity|].
  assert (Hd : dialogAt (_fragments w) k = Some d) by (unfold dialogAt; now rewrite Hl).
  apply closeCalls_in. exists k, d.
  split; [eapply dialogAt_in_keys; exact Hd|]. now repeat split.
Qed.

Lemma opened_dialogs_are_registered_witness :
  exists w3,
    openDialogThen homeController "Login" None None None None
                   [ControllerRejected; FragmentClassReady;
                    FragmentResolved 7%nat (HookRuns true); TimerFired]
                   initialWorld = Some w3 /\
    exists w' evs, closeFragments otherController w3 = Ok tt w' /\
                   trace w' = (trace w3 ++ evs)%list /\
                   In (DialogClose 7%nat) evs.
Proof.
  destruct (openDialogThen homeController "Login" None None None None
              [ControllerRejected; FragmentClassReady;
               FragmentResolved 7%nat (HookRuns true); TimerFired] initialWorld)
    as [w3|] eqn:E; [|vm_compute in E; discriminate E].
  exists w3. split; [reflexivity|].
  pose proof (openDialogThen_reachable _ _ _ _ _ _ _ _ _ (R_loaded [] None []) E) as HR.
  apply (opened_dialogs_are_registered otherController w3 7%nat HR).
  - right. vm_compute in E. injection E as <-. simpl. tauto.
  - vm_compute in E. injection E as <-. reflexivity.
Defined.

(** ** [setModel] and [getModel] *)

Lemma modelKeyEqb_refl (k : string * option string) : modelKeyEqb k k = true.
Proof.
  destruct k as [v [n|]]; unfold modelKeyEqb; simpl; rewrite String.eqb_refl;
    [apply String.eqb_refl|reflexivity].
Qed.

(** X18: with the models of a view kept under their names, as the
    framework keeps them, [getModel(name)] of any controller of the
    view returns the model that [setModel(model, name)] has just set,
    for a non-empty name and for the omitted name alike.  The empty
    name is the exception: [setModel(model, "")] passes it on, but
    [getModel("")] asks for the default model, and returns what the
    default model was before. *)
Theorem getModel_after_setModel
        (this that : BaseController) (model : ModelId) (w : World) :
  getId (getView that) = getId (getView this) ->
  (forall (a : ascii) (s : string),
      let w' := worldOf (setModel this model (Some (String a s)) w) in
      getModel that (Some (String a s)) w' = Ok (Some model) w') /\
  (let w' := worldOf (setModel this model None w) in
   getModel that None w' = Ok (Some model) w') /\
  (let w' := worldOf (setModel this model (Some "") w) in
   exists m, getModel that None w = Ok m w /\ getModel that (Some "") w' = Ok m w').
Proof.
  intros Hv. split; [|split].
  - intros a s w'. subst w'.
    unfold getModel, setModel, View_getModel, View_setModel, bind, emit, setViewModels.
    cbn [JS.truthyStr String.eqb negb worldOf viewModels lookupModel].
    now rewrite Hv, modelKeyEqb_refl.
  - intros w'. subst w'.
    unfold getModel, setModel, View_getModel, View_setModel, bind, emit, setViewModels.
    cbn [JS.truthyStr worldOf viewModels lookupModel].
    now rewrite Hv, modelKeyEqb_refl.
  - intros w'. subst w'. eexists. split; [reflexivity|].
    unfold getModel, setModel, View_getModel, View_setModel, bind, emit, setViewModels.
    cbn [JS.truthyStr String.eqb negb worldOf viewModels lookupModel].
    unfold modelKeyEqb at 1. cbn [fst snd]. rewrite andb_false_r. reflexivity.
Qed.

Lemma getModel_after_setModel_witness :
  getModel homeController (Some "device")
           (worldOf (setModel homeController 3%nat (Some "device") initialWorld))
  = Ok (Some 3%nat) (worldOf (setModel homeController 3%nat (Some "device") initialWorld)).
Proof.
  apply (proj1 (getModel_after_setModel homeController homeController 3%nat initialWorld
                  eq_refl)).
Defined.
